(** * hr-companion: the supervisor workflow, embedded and verified

    The Python package [supervisor] runs five agents (resume, LinkedIn,
    cover letter, job match, final rank) over a list of candidates, routed
    by a supervisor node of a LangGraph state graph.  This file embeds the
    agents, the two document tools, the supervisor and the graph loop as
    Rocq functions and proves the properties of the specification about
    them.

    Everything outside the package (the language model, the file system,
    the web loader, [urlparse], [json.loads]) is a field of the record
    [Env]; the theorems quantify over it, and the module [Sample] gives
    one concrete world for the runs that are evaluated. *)

From Stdlib Require Import Ascii.
From stdpp Require Import gmap strings list fin_maps pretty.

(** ** Python values and control effects *)

Module Py.

(** The exception classes the package tells apart.  [Exception] stands
    for every other subclass of Python's [Exception]. *)
Inductive exc_class :=
| FileNotFoundError
| JSONDecodeError
| AttributeError
| IndexError
| GraphRecursionError
| Exception.

Global Instance exc_class_eq_dec : EqDecision exc_class.
Proof. solve_decision. Defined.

(** An exception object: its class and [str(e)]. *)
Record exn := mk_exn { exn_class : exc_class; exn_str : string }.

(** The outcome of running a piece of Python: a value or a raised
    exception. *)
Inductive Result (A : Type) :=
| Ok (a : A)
| Raise (e : exn).
Global Arguments Ok {A} a.
Global Arguments Raise {A} e.

Definition is_ok {A} (r : Result A) : bool :=
  match r with Ok _ => true | Raise _ => false end.

Global Instance Result_ret : MRet Result := fun A a => Ok a.
Global Instance Result_bind : MBind Result := fun A B f r =>
  match r with
  | Ok a => f a
  | Raise e => Raise e
  end.

(** [try: body / except cls: handler] for a body without model calls. *)
Definition try_except {A} (body : Result A) (handler : exn → Result A)
  : Result A :=
  match body with
  | Ok a => Ok a
  | Raise e => handler e
  end.

(** *** Strings *)

(** [str.isspace] on one code point below 256: tab to carriage return,
    the four separators 0x1c to 0x1f, space, 0x85 and 0xa0. *)
Definition isspace (c : ascii) : bool :=
  let n := nat_of_ascii c in
  ((9 <=? n) && (n <=? 13)) || ((28 <=? n) && (n <=? 32))
  || (n =? 133) || (n =? 160).

Fixpoint lstrip (s : string) : string :=
  match s with
  | String c s' => if isspace c then lstrip s' else s
  | EmptyString => EmptyString
  end.

Fixpoint rstrip (s : string) : string :=
  match s with
  | String c s' =>
      match rstrip s' with
      | EmptyString => if isspace c then EmptyString else String c EmptyString
      | r => String c r
      end
  | EmptyString => EmptyString
  end.

(** [s.strip()] *)
Definition strip (s : string) : string := rstrip (lstrip s).

(** [not s] for a string. *)
Definition falsy (s : string) : bool :=
  match s with EmptyString => true | _ => false end.

(** [s.startswith(p)] *)
Definition startswith (s p : string) : bool := String.prefix p s.

(** [sub in s] *)
Fixpoint contains (sub s : string) : bool :=
  String.prefix sub s ||
  match s with
  | String _ s' => contains sub s'
  | EmptyString => false
  end.

(** [s.split(sep)] for a non-empty separator: [skip] counts the
    characters of a separator still to be dropped, [cur] is the piece
    being collected. *)
Fixpoint split_go (sep : string) (skip : nat) (cur s : string)
  : list string :=
  match s with
  | EmptyString => [cur]
  | String c s' =>
      match skip with
      | S k => split_go sep k cur s'
      | O =>
          if String.prefix sep s
          then cur :: split_go sep (String.length sep - 1) "" s'
          else split_go sep 0 (cur +:+ String c "") s'
      end
  end.

Definition split (s sep : string) : list string := split_go sep 0 "" s.

(** [sep.join(parts)] *)
Fixpoint join (sep : string) (parts : list string) : string :=
  match parts with
  | [] => ""
  | [p] => p
  | p :: ps => p +:+ sep +:+ join sep ps
  end.

(** [l[i]] *)
Definition index {A} (l : list A) (i : nat) : Result A :=
  match l !! i with
  | Some a => Ok a
  | None => Raise (mk_exn IndexError "list index out of range")
  end.

(** [d.get(key)] and [d.get(key, default)] on a dict with string keys. *)
Definition dict_get {V} (d : gmap string V) (key : string) : option V :=
  d !! key.
Definition dict_get_default {V} (d : gmap string V) (key : string)
    (dflt : V) : V :=
  default dflt (d !! key).

(** The newline character of the prompts and joins. *)
Definition nl : string := String (ascii_of_nat 10) "".

End Py.
Export Py.

(** ** Data model (state.py and the objects the agents exchange) *)

(** The reply object of [llm.invoke]: an [AIMessage]; [content] is its
    text, [metadata] stands for the remaining fields. *)
Record AIMessage := mk_ai { content : string; metadata : string }.

(** The chat messages the package builds: the system messages of the
    supervisor prompt and [HumanMessage(content=..., name=...)]. *)
Inductive Message :=
| SystemMessage (text : string)
| HumanMessage (text name : string).

Definition msg_name (m : Message) : option string :=
  match m with
  | SystemMessage _ => None
  | HumanMessage _ name => Some name
  end.

(** What an analysis dict holds under a candidate id: a Python string or
    the reply object itself. *)
Inductive analysis :=
| AStr (s : string)
| AMsg (m : AIMessage).

(** Values of [json.loads] and of the dict literals of the final ranker;
    a dict keeps its keys in insertion order. *)
#[warnings="-register-all"] Inductive json :=
| JNone
| JBool (b : bool)
| JInt (z : Z)
| JFloat (literal : string)
| JStr (s : string)
| JList (l : list json)
| JDict (d : list (string * json)).

(** A candidate is a [Dict[str, str]]. *)
Abbreviation candidate := (gmap string string).

(** [CandidateState] *)
Record CandidateState := mk_state {
  messages : list Message;
  job_offer : string;
  candidates : list candidate;
  resume_analyses : gmap string analysis;
  linkedin_analyses : gmap string analysis;
  cover_letter_analyses : gmap string analysis;
  job_matches : gmap string analysis;
  final_ranking : list (string * json);
  next : string
}.

(** The dict a node returns: only the keys it sets. *)
Record Update := mk_update {
  u_messages : list Message;
  u_resume_analyses : option (gmap string analysis);
  u_linkedin_analyses : option (gmap string analysis);
  u_cover_letter_analyses : option (gmap string analysis);
  u_job_matches : option (gmap string analysis);
  u_final_ranking : option (list (string * json));
  u_next : option string
}.

Definition no_update : Update := mk_update [] None None None None None None.

(** ** The world outside the package *)

(** What a path holds, as [parse_pdf] can observe it. *)
Inductive PdfFile :=
| Missing                               (* [path.exists()] is false *)
| Unreadable (e : exn)                  (* [PdfReader] or [.pages] raises *)
| Pages (pages : list (Result string)). (* each page's [extract_text()] *)

(** One call on the shared [llm] object. *)
Inductive llm_call :=
| InvokeCall (prompt : string)
| RouteCall (history : list Message).

(** The values of [RouteResponse.next]: [Literal[*options]]. *)
Inductive member :=
| ResumeAnalyzer | LinkedInAnalyzer | CoverLetterAnalyzer | JobMatcher
| FinalRanker.
Inductive route :=
| FINISH
| Go (m : member).

Global Instance member_eq_dec : EqDecision member.
Proof. solve_decision. Defined.
Global Instance route_eq_dec : EqDecision route.
Proof. solve_decision. Defined.

Record Env := mk_env {
  (** the file system *)
  pdf_file : string → PdfFile;
  (** [urlparse(s)]: scheme and netloc *)
  urlparse : string → Result (string * string);
  (** [WebBaseLoader(web_paths=(url,), bs_kwargs=...).load()]: the
      [page_content] of each document, for a url and the classes of the
      [SoupStrainer] *)
  web_load : string → list string → Result (list string);
  (** [llm.invoke(prompt)], given the calls made so far *)
  llm_reply : list llm_call → string → Result AIMessage;
  (** [(prompt | llm.with_structured_output(RouteResponse)).invoke(state)],
      given the calls made so far: the validated [next] field *)
  llm_route : list llm_call → list Message → Result route;
  (** [json.loads] *)
  json_loads : string → Result json;
  (** [str(m)] of a reply object *)
  str_message : AIMessage → string;
  (** [str(v)] of a float, list or dict *)
  str_container : json → string
}.

(** ** Computations that may call the model *)

(** A computation reads and extends the list of calls made on [llm] and
    returns or raises; the calls made before a raise stay made. *)
Definition M (A : Type) : Type := list llm_call → Result A * list llm_call.

Global Instance M_ret : MRet M := fun A a log => (Ok a, log).
Global Instance M_bind : MBind M := fun A B f m log =>
  match m log with
  | (Ok a, log') => f a log'
  | (Raise e, log') => (Raise e, log')
  end.

Definition lift {A} (r : Result A) : M A := fun log => (r, log).

(** [try: body / except ... as e: handler e] *)
Definition try_exceptM {A} (body : M A) (handler : exn → M A) : M A :=
  fun log =>
    match body log with
    | (Ok a, log') => (Ok a, log')
    | (Raise e, log') => handler e log'
    end.

(** [for idx, x in enumerate(xs): body], the loop body transforming the
    local variables [st]; [idx] is the index of the head of [xs]. *)
Fixpoint for_enumerate {A S} (body : nat → A → S → M S) (idx : nat)
    (xs : list A) (st : S) : M S :=
  match xs with
  | [] => mret st
  | x :: xs' => st' ← body idx x st; for_enumerate body (Datatypes.S idx) xs' st'
  end.

(** The same loop for a body that makes no model call. *)
Fixpoint for_in {A S} (body : A → S → Result S) (xs : list A) (st : S)
    : Result S :=
  match xs with
  | [] => Ok st
  | x :: xs' => st' ← body x st; for_in body xs' st'
  end.

(** ** tools/pdf_parser.py and tools/linkedin_scraper.py *)

Section Tools.
Context (E : Env).

(** Body of the page loop of [parse_pdf]: a page whose [extract_text]
    raises is skipped ([continue] in the handler), a page with blank text
    is not appended. *)
Definition parse_pdf_page (page : Result string) (text_content : list string)
  : Result (list string) :=
  try_except
    (text ← page;
     if negb (falsy (strip text))
     then mret (text_content ++ [text])
     else mret text_content)
    (fun _ => mret text_content).

Definition parse_pdf (file_path : string) : Result string :=
  try_except
    (match pdf_file E file_path with
     | Missing =>
         Raise (mk_exn FileNotFoundError ("PDF file not found: " +:+ file_path))
     | Unreadable e => Raise e
     | Pages pages =>
         text_content ← for_in parse_pdf_page pages [];
         let full_text := join (nl +:+ nl) text_content in
         if falsy (strip full_text) then mret "" else mret full_text
     end)
    (fun e =>
       match exn_class e with
       | FileNotFoundError => Raise e
       | _ => Raise (mk_exn Exception ("Error parsing PDF: " +:+ exn_str e))
       end).

(** The [class_] tuple of the [SoupStrainer]. *)
Definition linkedin_classes : list string :=
  ["profile"; "profile-section"; "pv-top-card"; "experience-section";
   "education-section"; "skill-section"].

Definition scrape_linkedin (url_or_text : string) : Result string :=
  try_except
    (parsed ← urlparse E url_or_text;
     let is_url := negb (falsy parsed.1) && negb (falsy parsed.2) in
     if negb is_url then mret url_or_text
     else
       docs ← web_load E url_or_text linkedin_classes;
       match docs with
       | [] => mret ""
       | _ => mret (join (nl +:+ nl) docs)
       end)
    (fun e =>
       mret ("Error accessing LinkedIn profile: " +:+ exn_str e)).

End Tools.

(** ** The agents (agents/*.py) *)

(** [not v] for the result of [candidate.get(key)]: [None] or a string. *)
Definition not_ (v : option string) : bool :=
  match v with
  | Some s => falsy s
  | None => true
  end.

(** The f-string [candidate_{idx}]. *)
Definition placeholder (idx : nat) : string := "candidate_" +:+ pretty idx.

Definition dq : string := String (ascii_of_nat 34) "".
Definition quoted (s : string) : string := dq +:+ s +:+ dq.

Definition resume_prompt (resume_text : string) : string :=
  "Analyze the following resume and extract key information:

Resume Content:
" +:+ resume_text +:+ "

Provide a structured analysis including:
1. Skills (technical and soft skills)
2. Work Experience (positions, companies, duration, key achievements)
3. Education (degrees, institutions, graduation dates)
4. Certifications and additional qualifications
5. Overall strengths and areas of expertise

Be concise but thorough.".

Definition linkedin_prompt (linkedin_text : string) : string :=
  "Analyze the following LinkedIn profile and extract key insights:

LinkedIn Profile:
" +:+ linkedin_text +:+ "

Provide a structured analysis including:
1. Professional Summary and headline
2. Career trajectory and progression
3. Key skills and endorsements
4. Notable accomplishments and projects
5. Professional network indicators (if available)
6. Recommendations and testimonials (if available)
7. Overall professional brand and positioning

Be concise but insightful.".

Definition cover_letter_prompt (cover_letter_text : string) : string :=
  "Analyze the following cover letter and extract key insights:

Cover Letter:
" +:+ cover_letter_text +:+ "

Provide a structured analysis including:
1. Motivation for applying
2. Understanding of the role and company
3. Cultural fit indicators
4. Communication style and professionalism
5. Unique value propositions mentioned
6. Passion and enthusiasm level
7. Writing quality and clarity

Be concise but insightful.".

Definition job_match_prompt (job_offer resume_analysis linkedin_analysis
    cover_letter_analysis : string) : string :=
  "Match the following candidate against the job offer requirements:

JOB OFFER:
" +:+ job_offer +:+ "

CANDIDATE PROFILE:

Resume Analysis:
" +:+ resume_analysis +:+ "

LinkedIn Analysis:
" +:+ linkedin_analysis +:+ "

Cover Letter Analysis:
" +:+ cover_letter_analysis +:+ "

Provide a comprehensive matching assessment including:
1. Overall compatibility score (0-100)
2. Key strengths that align with the job requirements
3. Gaps or areas of concern
4. Technical skills match
5. Experience level match
6. Cultural fit indicators
7. Unique advantages this candidate brings
8. Potential risks or limitations

Be objective and thorough in your assessment.".

Definition candidate_summary (candidate_id resume linkedin cover_letter
    job_match : string) : string :=
  "
CANDIDATE: " +:+ candidate_id +:+ "
Resume: " +:+ resume +:+ "
LinkedIn: " +:+ linkedin +:+ "
Cover Letter: " +:+ cover_letter +:+ "
Job Match: " +:+ job_match +:+ "
---
".

Definition ranking_prompt (job_offer all_candidates_text : string) : string :=
  "Based on all the analyses, create a final ranking of candidates for the job offer.

JOB OFFER:
" +:+ job_offer +:+ "

CANDIDATE ANALYSES:
" +:+ all_candidates_text +:+ "

Provide:
1. A ranked list of candidates (best to least suitable)
2. For each candidate, provide:
   - Overall score (0-100)
   - Key strengths
   - Key weaknesses
   - Reasoning for their ranking
   - Hiring recommendation (Strong Yes / Yes / Maybe / No)
3. A summary comparing the top candidates
4. Final recommendation

Be thorough, objective, and provide actionable insights for the hiring decision.".

Definition json_prompt (detailed_report : string) : string :=
  "Based on the following detailed ranking report, extract a structured JSON ranking.

REPORT:
" +:+ detailed_report +:+ "

Return ONLY a valid JSON object with this structure:
{
    " +:+ quoted "rankings" +:+ ": [
        {
            " +:+ quoted "candidate_id" +:+ ": " +:+ quoted "candidate_id" +:+ ",
            " +:+ quoted "rank" +:+ ": 1,
            " +:+ quoted "score" +:+ ": 85,
            " +:+ quoted "recommendation" +:+ ": " +:+ quoted "Strong Yes" +:+ ",
            " +:+ quoted "key_strengths" +:+ ": [" +:+ quoted "strength1"
      +:+ ", " +:+ quoted "strength2" +:+ "],
            " +:+ quoted "key_weaknesses" +:+ ": [" +:+ quoted "weakness1"
      +:+ ", " +:+ quoted "weakness2" +:+ "]
        }
    ],
    " +:+ quoted "top_recommendation" +:+ ": " +:+ quoted "candidate_id" +:+ ",
    " +:+ quoted "summary" +:+ ": " +:+ quoted "Brief summary of the decision" +:+ "
}

Ensure the JSON is valid and complete.".

Section Agents.
Context (E : Env).

(** [llm.invoke(prompt)]: the call is recorded, then returns or raises. *)
Definition llm_invoke (prompt : string) : M AIMessage :=
  fun log => (llm_reply E log prompt, log ++ [InvokeCall prompt]).

(** How an f-string renders an entry of an analysis dict. *)
Definition format_analysis (a : analysis) : string :=
  match a with
  | AStr s => s
  | AMsg m => str_message E m
  end.

(** *** resume_analyzer.py

    In every agent the local dict is only written by the last statement
    of a path through the loop body, so the [except] handler finds the
    dict as the loop body found it. *)

(** The [try] block of the loop body. *)
Definition analyze_resume_try (candidate_id resume_path : string)
    (resume_analyses : gmap string analysis) : M (gmap string analysis) :=
  resume_text ← lift (parse_pdf E resume_path);
  let prompt := resume_prompt resume_text in
  analysis ← llm_invoke prompt;
  mret (<[candidate_id := AMsg analysis]> resume_analyses).

(** The [except Exception as e] handler. *)
Definition analyze_resume_except (candidate_id : string)
    (resume_analyses : gmap string analysis) (e : exn)
  : M (gmap string analysis) :=
  mret (<[candidate_id := AStr ("Error analyzing resume: " +:+ exn_str e)]>
          resume_analyses).

Definition analyze_resume_body (idx : nat) (candidate : candidate)
    (resume_analyses : gmap string analysis) : M (gmap string analysis) :=
  let candidate_id := dict_get_default candidate "id" (placeholder idx) in
  let resume_path := dict_get candidate "resume_path" in
  if not_ resume_path then
    mret (<[candidate_id := AStr "No resume provided"]> resume_analyses)
  else
    try_exceptM
      (analyze_resume_try candidate_id (default "" resume_path)
         resume_analyses)
      (analyze_resume_except candidate_id resume_analyses).

Definition analyze_resume (state : CandidateState) : M Update :=
  let candidates := candidates state in
  resume_analyses ← for_enumerate analyze_resume_body 0 candidates ∅;
  let summary := "Resume Analyzer: Completed analysis of "
                 +:+ pretty (size resume_analyses) +:+ " candidate resumes." in
  mret (mk_update [HumanMessage summary "ResumeAnalyzer"]
          (Some resume_analyses) None None None None None).

(** *** linkedin_analyzer.py *)

Definition analyze_linkedin_try (candidate_id linkedin_url : string)
    (linkedin_analyses : gmap string analysis) : M (gmap string analysis) :=
  linkedin_text ← lift (scrape_linkedin E linkedin_url);
  if falsy linkedin_text || startswith linkedin_text "Error" then
    mret (<[candidate_id :=
              AStr (if falsy linkedin_text then "No content available"
                    else linkedin_text)]> linkedin_analyses)
  else
    let prompt := linkedin_prompt linkedin_text in
    analysis ← llm_invoke prompt;
    mret (<[candidate_id := AMsg analysis]> linkedin_analyses).

Definition analyze_linkedin_except (candidate_id : string)
    (linkedin_analyses : gmap string analysis) (e : exn)
  : M (gmap string analysis) :=
  mret (<[candidate_id := AStr ("Error analyzing LinkedIn: " +:+ exn_str e)]>
          linkedin_analyses).

Definition analyze_linkedin_body (idx : nat) (candidate : candidate)
    (linkedin_analyses : gmap string analysis) : M (gmap string analysis) :=
  let candidate_id := dict_get_default candidate "id" (placeholder idx) in
  let linkedin_url := dict_get candidate "linkedin_url" in
  if not_ linkedin_url then
    mret (<[candidate_id := AStr "No LinkedIn profile provided"]>
            linkedin_analyses)
  else
    try_exceptM
      (analyze_linkedin_try candidate_id (default "" linkedin_url)
         linkedin_analyses)
      (analyze_linkedin_except candidate_id linkedin_analyses).

Definition analyze_linkedin (state : CandidateState) : M Update :=
  let candidates := candidates state in
  linkedin_analyses ← for_enumerate analyze_linkedin_body 0 candidates ∅;
  let summary := "LinkedIn Analyzer: Completed analysis of "
                 +:+ pretty (size linkedin_analyses)
                 +:+ " LinkedIn profiles." in
  mret (mk_update [HumanMessage summary "LinkedInAnalyzer"]
          None (Some linkedin_analyses) None None None None).

(** *** cover_letter_analyzer.py *)

Definition analyze_cover_letter_try (candidate_id cover_letter_path : string)
    (cover_letter_analyses : gmap string analysis)
  : M (gmap string analysis) :=
  cover_letter_text ← lift (parse_pdf E cover_letter_path);
  if falsy (strip cover_letter_text) then
    mret (<[candidate_id := AStr "Cover letter file is empty"]>
            cover_letter_analyses)
  else
    let prompt := cover_letter_prompt cover_letter_text in
    analysis ← llm_invoke prompt;
    mret (<[candidate_id := AMsg analysis]> cover_letter_analyses).

(** [except FileNotFoundError] first, then [except Exception as e]. *)
Definition analyze_cover_letter_except (candidate_id : string)
    (cover_letter_analyses : gmap string analysis) (e : exn)
  : M (gmap string analysis) :=
  match exn_class e with
  | FileNotFoundError =>
      mret (<[candidate_id := AStr "Cover letter file not found"]>
              cover_letter_analyses)
  | _ =>
      mret (<[candidate_id :=
                AStr ("Error analyzing cover letter: " +:+ exn_str e)]>
              cover_letter_analyses)
  end.

Definition analyze_cover_letter_body (idx : nat) (candidate : candidate)
    (cover_letter_analyses : gmap string analysis)
  : M (gmap string analysis) :=
  let candidate_id := dict_get_default candidate "id" (placeholder idx) in
  let cover_letter_path := dict_get candidate "cover_letter_path" in
  if not_ cover_letter_path then
    mret (<[candidate_id := AStr "No cover letter provided (optional)"]>
            cover_letter_analyses)
  else
    try_exceptM
      (analyze_cover_letter_try candidate_id (default "" cover_letter_path)
         cover_letter_analyses)
      (analyze_cover_letter_except candidate_id cover_letter_analyses).

Definition analyze_cover_letter (state : CandidateState) : M Update :=
  let candidates := candidates state in
  cover_letter_analyses ←
    for_enumerate analyze_cover_letter_body 0 candidates ∅;
  let summary := "Cover Letter Analyzer: Completed analysis of "
                 +:+ pretty (size cover_letter_analyses)
                 +:+ " cover letters." in
  mret (mk_update [HumanMessage summary "CoverLetterAnalyzer"]
          None None (Some cover_letter_analyses) None None None).

(** *** job_matcher.py *)

Definition match_candidates_try (job_offer candidate_id : string)
    (resume_analysis linkedin_analysis cover_letter_analysis : analysis)
    (job_matches : gmap string analysis) : M (gmap string analysis) :=
  let prompt :=
    job_match_prompt job_offer (format_analysis resume_analysis)
      (format_analysis linkedin_analysis)
      (format_analysis cover_letter_analysis) in
  match_result_response ← llm_invoke prompt;
  mret (<[candidate_id := AStr (content match_result_response)]> job_matches).

Definition match_candidates_except (candidate_id : string)
    (job_matches : gmap string analysis) (e : exn)
  : M (gmap string analysis) :=
  mret (<[candidate_id := AStr ("Error in job matching: " +:+ exn_str e)]>
          job_matches).

Definition match_candidates_body (state : CandidateState) (idx : nat)
    (candidate : candidate) (job_matches : gmap string analysis)
  : M (gmap string analysis) :=
  let candidate_id := dict_get_default candidate "id" (placeholder idx) in
  let resume_analysis :=
    dict_get_default (resume_analyses state) candidate_id
      (AStr "No resume analysis") in
  let linkedin_analysis :=
    dict_get_default (linkedin_analyses state) candidate_id
      (AStr "No LinkedIn analysis") in
  let cover_letter_analysis :=
    dict_get_default (cover_letter_analyses state) candidate_id
      (AStr "No cover letter analysis") in
  try_exceptM
    (match_candidates_try (job_offer state) candidate_id resume_analysis
       linkedin_analysis cover_letter_analysis job_matches)
    (match_candidates_except candidate_id job_matches).

Definition match_candidates (state : CandidateState) : M Update :=
  let candidates := candidates state in
  job_matches ← for_enumerate (match_candidates_body state) 0 candidates ∅;
  let summary := "Job Matcher: Completed matching analysis for "
                 +:+ pretty (size job_matches)
                 +:+ " candidates against the job offer." in
  mret (mk_update [HumanMessage summary "JobMatcher"]
          None None None (Some job_matches) None None).

End Agents.

(** ** agents/final_ranker.py *)

(** [type(v).__name__] *)
Definition type_name (v : json) : string :=
  match v with
  | JNone => "NoneType"
  | JBool _ => "bool"
  | JInt _ => "int"
  | JFloat _ => "float"
  | JStr _ => "str"
  | JList _ => "list"
  | JDict _ => "dict"
  end.

Fixpoint assoc (key : string) (d : list (string * json)) : option json :=
  match d with
  | [] => None
  | (k, v) :: d' => if decide (k = key) then Some v else assoc key d'
  end.

(** [v.get(key, dflt)]: only a dict has the method. *)
Definition json_get (v : json) (key : string) (dflt : json) : Result json :=
  match v with
  | JDict d => Ok (default dflt (assoc key d))
  | _ =>
      Raise (mk_exn AttributeError
               ("'" +:+ type_name v +:+ "' object has no attribute 'get'"))
  end.

(** One entry of the fallback ranking. *)
Definition fallback_entry (idx : nat) (candidate : candidate) : json :=
  JDict [("candidate_id",
          JStr (dict_get_default candidate "id" (placeholder idx)));
         ("rank", JInt (Z.of_nat idx + 1));
         ("score", JInt 0);
         ("recommendation", JStr "Unable to parse");
         ("key_strengths", JList []);
         ("key_weaknesses", JList [])].

(** The dict built in the [except json.JSONDecodeError] handler. *)
Definition fallback_structure (candidates : list candidate) : json :=
  JDict [("rankings", JList (imap fallback_entry candidates));
         ("top_recommendation",
          match candidates with
          | c :: _ => JStr (dict_get_default c "id" "candidate_0")
          | [] => JNone
          end);
         ("summary", JStr "Error parsing structured output")].

Section FinalRanker.
Context (E : Env).

(** [str(v)] as an f-string renders a parsed value. *)
Definition py_str (v : json) : string :=
  match v with
  | JNone => "None"
  | JBool true => "True"
  | JBool false => "False"
  | JInt z => pretty z
  | JStr s => s
  | _ => str_container E v
  end.

(** The text handed to [json.loads]: the reply, or what stands between
    the first code fence and the next one. *)
Definition extract_json_str (json_response : AIMessage) : Result string :=
  let json_str := str_message E json_response in
  if contains "```json" json_str then
    after ← index (split json_str "```json") 1;
    inside ← index (split after "```") 0;
    mret (strip inside)
  else if contains "```" json_str then
    after ← index (split json_str "```") 1;
    inside ← index (split after "```") 0;
    mret (strip inside)
  else mret json_str.

(** The inner [try] of [rank_candidates]: only [json.JSONDecodeError] is
    handled there. *)
Definition parse_structured_output (candidates : list candidate)
    (json_response : AIMessage) : Result json :=
  try_except
    (json_str ← extract_json_str json_response;
     json_loads E json_str)
    (fun e =>
       match exn_class e with
       | JSONDecodeError => mret (fallback_structure candidates)
       | _ => Raise e
       end).

Definition rank_candidates_summary (state : CandidateState) (idx : nat)
    (candidate : candidate) (candidates_summary : list string)
  : M (list string) :=
  let candidate_id := dict_get_default candidate "id" (placeholder idx) in
  let na := AStr "N/A" in
  mret (candidates_summary ++
        [candidate_summary candidate_id
           (format_analysis E
              (dict_get_default (resume_analyses state) candidate_id na))
           (format_analysis E
              (dict_get_default (linkedin_analyses state) candidate_id na))
           (format_analysis E
              (dict_get_default (cover_letter_analyses state) candidate_id na))
           (format_analysis E
              (dict_get_default (job_matches state) candidate_id na))]).

(** First half of the outer [try]: the summaries of the candidates and
    the call for the free-text report. *)
Definition rank_candidates_report (state : CandidateState) : M AIMessage :=
  let job_offer := job_offer state in
  let candidates := candidates state in
  candidates_summary ←
    for_enumerate (rank_candidates_summary state) 0 candidates [];
  let all_candidates_text := join nl candidates_summary in
  let prompt := ranking_prompt job_offer all_candidates_text in
  llm_invoke E prompt.

(** The body of the outer [try]. *)
Definition rank_candidates_try (state : CandidateState) : M Update :=
  let candidates := candidates state in
  detailed_report ← rank_candidates_report state;
  let json_prompt := json_prompt (str_message E detailed_report) in
  json_response ← llm_invoke E json_prompt;
  structured_output ←
    lift (parse_structured_output candidates json_response);
  let final_ranking :=
    [("detailed_report", JStr (str_message E detailed_report));
     ("structured_output", structured_output)] in
  top ← lift (json_get structured_output "top_recommendation" (JStr "N/A"));
  let summary := "Final Ranker: Completed ranking of "
                 +:+ pretty (length candidates)
                 +:+ " candidates. Top recommendation: "
                 +:+ py_str top in
  mret (mk_update [HumanMessage summary "FinalRanker"]
          None None None None (Some final_ranking) None).

(** The outer [except Exception as e] handler. *)
Definition rank_candidates_except (e : exn) : M Update :=
  let error_ranking :=
    [("detailed_report", JStr ("Error generating ranking: " +:+ exn_str e));
     ("structured_output", JDict [("error", JStr (exn_str e))])] in
  mret (mk_update
          [HumanMessage ("Final Ranker: Error - " +:+ exn_str e) "FinalRanker"]
          None None None None (Some error_ranking) None).

Definition rank_candidates (state : CandidateState) : M Update :=
  try_exceptM (rank_candidates_try state) rank_candidates_except.

End FinalRanker.

(** ** supervisor.py *)

Definition members : list string :=
  ["ResumeAnalyzer"; "LinkedInAnalyzer"; "CoverLetterAnalyzer"; "JobMatcher";
   "FinalRanker"].
Definition options : list string := "FINISH" :: members.

Definition member_name (m : member) : string :=
  match m with
  | ResumeAnalyzer => "ResumeAnalyzer"
  | LinkedInAnalyzer => "LinkedInAnalyzer"
  | CoverLetterAnalyzer => "CoverLetterAnalyzer"
  | JobMatcher => "JobMatcher"
  | FinalRanker => "FinalRanker"
  end.

(** The string a validated [RouteResponse.next] holds. *)
Definition route_name (r : route) : string :=
  match r with
  | FINISH => "FINISH"
  | Go m => member_name m
  end.

Definition system_prompt : string :=
  "You are a supervisor managing a team of specialized agents to evaluate job candidates.

Your team consists of:
- ResumeAnalyzer: Analyzes candidate resumes
- LinkedInAnalyzer: Analyzes LinkedIn profiles
- CoverLetterAnalyzer: Analyzes cover letters
- JobMatcher: Matches candidates against job requirements
- FinalRanker: Creates final ranking and recommendations

WORKFLOW RULES (MANDATORY):
1. If you see NO messages from ResumeAnalyzer → route to ResumeAnalyzer
2. If you see ResumeAnalyzer but NO LinkedInAnalyzer → route to LinkedInAnalyzer
3. If you see LinkedInAnalyzer but NO CoverLetterAnalyzer → route to CoverLetterAnalyzer
4. If you see CoverLetterAnalyzer but NO JobMatcher → route to JobMatcher
5. If you see JobMatcher but NO FinalRanker → route to FinalRanker
6. If you see FinalRanker → route to FINISH

NEVER skip agents. ALWAYS follow this exact order.
Check the message history - each agent adds a message with their name when they complete.
".

(** [str(options)] *)
Definition str_options : string :=
  "[" +:+ join ", " ((fun o => "'" +:+ o +:+ "'") <$> options) +:+ "]".

(** The messages the [ChatPromptTemplate] yields for a state. *)
Definition supervisor_prompt (state : CandidateState) : list Message :=
  [SystemMessage system_prompt] ++ messages state ++
  [SystemMessage
     ("Given the conversation above, who should act next? "
      +:+ "Or should we FINISH? Select one of: " +:+ str_options)].

Section Supervisor.
Context (E : Env).

(** [supervisor_chain.invoke(state)]: one structured call on the model. *)
Definition supervisor_chain (state : CandidateState) : M route :=
  fun log =>
    let prompt := supervisor_prompt state in
    (llm_route E log prompt, log ++ [RouteCall prompt]).

Definition supervisor_agent (state : CandidateState) : M Update :=
  response ← supervisor_chain state;
  let next_agent := route_name response in
  mret (mk_update [] None None None None None (Some next_agent)).

End Supervisor.

(** ** graph.py *)

(** How the compiled [StateGraph] folds a node's dict into the state:
    [messages] carries the reducer [operator.add], every other key is
    overwritten when the node returns it. *)
Definition apply_update (state : CandidateState) (u : Update)
  : CandidateState :=
  mk_state
    (messages state ++ u_messages u)
    (job_offer state)
    (candidates state)
    (default (resume_analyses state) (u_resume_analyses u))
    (default (linkedin_analyses state) (u_linkedin_analyses u))
    (default (cover_letter_analyses state) (u_cover_letter_analyses u))
    (default (job_matches state) (u_job_matches u))
    (default (final_ranking state) (u_final_ranking u))
    (default (next state) (u_next u)).

(** Where an edge leads. *)
Inductive target :=
| END
| Node (name : string).

(** The mapping of [add_conditional_edges]. *)
Definition conditional_edges : list (string * target) :=
  [("ResumeAnalyzer", Node "ResumeAnalyzer");
   ("LinkedInAnalyzer", Node "LinkedInAnalyzer");
   ("CoverLetterAnalyzer", Node "CoverLetterAnalyzer");
   ("JobMatcher", Node "JobMatcher");
   ("FinalRanker", Node "FinalRanker");
   ("FINISH", END)].

Fixpoint edge_lookup (key : string) (edges : list (string * target))
  : option target :=
  match edges with
  | [] => None
  | (k, t) :: edges' => if decide (k = key) then Some t else edge_lookup key edges'
  end.

Section Graph.
Context (E : Env).

(** The nodes of [create_graph], by name. *)
Definition nodes : list (string * (CandidateState → M Update)) :=
  [("ResumeAnalyzer", analyze_resume E);
   ("LinkedInAnalyzer", analyze_linkedin E);
   ("CoverLetterAnalyzer", analyze_cover_letter E);
   ("JobMatcher", match_candidates E);
   ("FinalRanker", rank_candidates E);
   ("supervisor", supervisor_agent E)].

Fixpoint node_lookup (name : string)
    (l : list (string * (CandidateState → M Update)))
  : option (CandidateState → M Update) :=
  match l with
  | [] => None
  | (k, f) :: l' => if decide (k = name) then Some f else node_lookup name l'
  end.

(** The edge taken after [node] has run: members lead back to the
    supervisor, the supervisor branches on [state["next"]]. *)
Definition next_target (node : string) (state : CandidateState)
  : Result target :=
  if decide (node = "supervisor") then
    match edge_lookup (next state) conditional_edges with
    | Some t => Ok t
    | None => Raise (mk_exn Exception ("KeyError: " +:+ next state))
    end
  else Ok (Node "supervisor").

(** [graph.invoke]: run [node], fold its dict into the state, follow the
    edge; [limit] is the number of node executions still allowed (the
    recursion limit of the graph). *)
Fixpoint graph_run (limit : nat) (node : string) (state : CandidateState)
  : M CandidateState :=
  match limit with
  | O =>
      lift (Raise (mk_exn GraphRecursionError
                     "Recursion limit reached without hitting a stop condition"))
  | S limit' =>
      match node_lookup node nodes with
      | None => lift (Raise (mk_exn Exception ("KeyError: " +:+ node)))
      | Some fn =>
          u ← fn state;
          let state' := apply_update state u in
          t ← lift (next_target node state');
          match t with
          | END => mret state'
          | Node n => graph_run limit' n state'
          end
      end
  end.

(** The default recursion limit of a compiled graph. *)
Definition recursion_limit : nat := 25.

Definition graph_invoke (initial_state : CandidateState) : M CandidateState :=
  graph_run recursion_limit "supervisor" initial_state.

End Graph.

(** ** main.py *)

Record Evaluation := mk_evaluation {
  detailed_report : json;
  structured_output : json;
  all_resume_analyses : gmap string analysis;
  all_linkedin_analyses : gmap string analysis;
  all_cover_letter_analyses : gmap string analysis;
  all_job_matches : gmap string analysis
}.

Definition initial_state (job_offer : string) (candidates : list candidate)
  : CandidateState :=
  let initial_message :=
    HumanMessage
      ("Please evaluate " +:+ pretty (length candidates)
       +:+ " candidates for the following job offer. "
       +:+ "Follow the complete workflow: analyze resumes, LinkedIn profiles, cover letters, "
       +:+ "match candidates to the job, and provide final rankings.")
      "user" in
  mk_state [initial_message] job_offer candidates ∅ ∅ ∅ ∅ [] "".

Definition evaluate_candidates (E : Env) (job_offer : string)
    (candidates : list candidate) : M Evaluation :=
  try_exceptM
    (final_state ← graph_invoke E (initial_state job_offer candidates);
     let final_ranking := final_ranking final_state in
     mret (mk_evaluation
             (default (JStr "No report generated")
                (assoc "detailed_report" final_ranking))
             (default (JDict []) (assoc "structured_output" final_ranking))
             (resume_analyses final_state)
             (linkedin_analyses final_state)
             (cover_letter_analyses final_state)
             (job_matches final_state)))
    (fun e => lift (Raise e)).

(** ** The routing rule of the specification *)

(** The completion-marker set of a message history: the names under which
    messages were added. *)
Definition markers (history : list Message) : gset string :=
  list_to_set (omap msg_name history).

(** The transition rule as the specification words it: the first step, in
    the fixed order, whose marker is absent; terminate when none is. *)
Definition spec_next_step (marks : gset string) : route :=
  if decide ("ResumeAnalyzer" ∉ marks) then Go ResumeAnalyzer
  else if decide ("LinkedInAnalyzer" ∉ marks) then Go LinkedInAnalyzer
  else if decide ("CoverLetterAnalyzer" ∉ marks) then Go CoverLetterAnalyzer
  else if decide ("JobMatcher" ∉ marks) then Go JobMatcher
  else if decide ("FinalRanker" ∉ marks) then Go FinalRanker
  else FINISH.

(** A model client that follows the workflow rules of the system prompt. *)
Definition obeys_workflow_rules (E : Env) : Prop :=
  ∀ log state,
    llm_route E log (supervisor_prompt state)
    = Ok (spec_next_step (markers (messages state))).

(** ** A sample world, for concrete runs *)

Module Sample.

Definition files (path : string) : PdfFile :=
  if decide (path = "cv/ada.pdf") then Pages [Ok "Ada: Python, Rocq"; Ok "  "]
  else if decide (path = "cv/blank.pdf") then Pages [Ok " "]
  else if decide (path = "cv/torn.pdf") then
    Pages [Raise (mk_exn Exception "bad page"); Ok "page two"]
  else if decide (path = "cv/two.pdf") then Pages [Ok "page two"]
  else if decide (path = "cv/corrupt.pdf") then
    Unreadable (mk_exn Exception "EOF marker not found")
  else Missing.

Definition parse_url (s : string) : Result (string * string) :=
  if startswith s "https://" then Ok ("https", "www.linkedin.com")
  else Ok ("", "").

Definition numbered_reply (log : list llm_call) (prompt : string)
  : Result AIMessage :=
  Ok (mk_ai ("reply " +:+ pretty (length log)) "").

Definition rule_router (log : list llm_call) (prompt : list Message)
  : Result route :=
  Ok (spec_next_step (markers prompt)).

Definition loads (s : string) : Result json :=
  if decide (s = "{}") then Ok (JDict [])
  else Raise (mk_exn JSONDecodeError "Expecting value: line 1 column 1 (char 0)").

(** A world whose model answers every prompt and routes by the rules. *)
Definition world : Env :=
  mk_env files parse_url (fun _ _ => Ok ["Grace Hopper"; "COBOL"])
    numbered_reply rule_router loads content (fun _ => "{}").

(** The same world with a model that routes to [FINISH] at once. *)
Definition hasty : Env :=
  mk_env files parse_url (fun _ _ => Ok ["Grace Hopper"; "COBOL"])
    numbered_reply (fun _ _ => Ok FINISH) loads content (fun _ => "{}").

(** The same world with a model that fails on every call. *)
Definition down : Env :=
  mk_env files parse_url (fun _ _ => Ok ["Grace Hopper"; "COBOL"])
    (fun _ _ => Raise (mk_exn Exception "connection refused"))
    rule_router loads content (fun _ => "{}").

Definition ada : candidate :=
  {[ "id" := "ada"; "resume_path" := "cv/ada.pdf";
     "linkedin_url" := "https://www.linkedin.com/in/ada";
     "cover_letter_path" := "cv/two.pdf" ]}.

Definition bob : candidate :=
  {[ "id" := "bob"; "resume_path" := "cv/blank.pdf" ]}.

Definition eve : candidate :=
  {[ "id" := "ada"; "resume_path" := "cv/nowhere.pdf" ]}.

End Sample.

(** ** Vocabulary of the statements *)

(** A string of whitespace only. *)
Fixpoint all_space (s : string) : bool :=
  match s with
  | String c s' => isspace c && all_space s'
  | EmptyString => true
  end.


(** The texts [parse_pdf] keeps: pages that extract and are not blank. *)
Definition kept_pages (pages : list (Result string)) : list string :=
  omap (fun page =>
          match page with
          | Ok text => if all_space text then None else Some text
          | Raise _ => None
          end) pages.

(** Extraction of some page of the file raises. *)
Definition page_failure (f : PdfFile) : Prop :=
  ∃ pages e, f = Pages pages ∧ Raise e ∈ pages.

(** The key an agent files the candidate at position [idx] under. *)
Definition candidate_id (idx : nat) (c : candidate) : string :=
  dict_get_default c "id" (placeholder idx).

(** The keys of a candidate list, in order; [idx] is the position of its
    head. *)
Fixpoint ids_from (idx : nat) (cs : list candidate) : list string :=
  match cs with
  | [] => []
  | c :: cs' => candidate_id idx c :: ids_from (S idx) cs'
  end.

Definition ids (cs : list candidate) : list string := ids_from 0 cs.

(** The four per-candidate steps. *)
Inductive step := ResumeStep | LinkedInStep | CoverLetterStep | JobMatchStep.

Global Instance step_eq_dec : EqDecision step.
Proof. solve_decision. Defined.

Definition step_name (s : step) : string :=
  match s with
  | ResumeStep => "ResumeAnalyzer"
  | LinkedInStep => "LinkedInAnalyzer"
  | CoverLetterStep => "CoverLetterAnalyzer"
  | JobMatchStep => "JobMatcher"
  end.

Definition step_agent (E : Env) (s : step) : CandidateState → M Update :=
  match s with
  | ResumeStep => analyze_resume E
  | LinkedInStep => analyze_linkedin E
  | CoverLetterStep => analyze_cover_letter E
  | JobMatchStep => match_candidates E
  end.

Definition step_body (E : Env) (state : CandidateState) (s : step)
  : nat → candidate → gmap string analysis → M (gmap string analysis) :=
  match s with
  | ResumeStep => analyze_resume_body E
  | LinkedInStep => analyze_linkedin_body E
  | CoverLetterStep => analyze_cover_letter_body E
  | JobMatchStep => match_candidates_body E state
  end.

(** The analysis dict of a step, in a node's dict and in the state. *)
Definition step_output (s : step) (u : Update)
  : option (gmap string analysis) :=
  match s with
  | ResumeStep => u_resume_analyses u
  | LinkedInStep => u_linkedin_analyses u
  | CoverLetterStep => u_cover_letter_analyses u
  | JobMatchStep => u_job_matches u
  end.

Definition step_map (s : step) (state : CandidateState)
  : gmap string analysis :=
  match s with
  | ResumeStep => resume_analyses state
  | LinkedInStep => linkedin_analyses state
  | CoverLetterStep => cover_letter_analyses state
  | JobMatchStep => job_matches state
  end.

(** Run from the calls [log], the loop body returns having filed [v]
    under the candidate's key, whatever the dict held, with the calls
    [log'] made. *)
Definition stores
    (body : nat → candidate → gmap string analysis → M (gmap string analysis))
    (idx : nat) (c : candidate) (log : list llm_call) (v : analysis)
    (log' : list llm_call) : Prop :=
  ∀ d, body idx c d log = (Ok (<[candidate_id idx c := v]> d), log').

(** A loop body that handles each candidate on its own: it always returns
    and writes exactly the candidate's key. *)
Definition per_candidate
    (body : nat → candidate → gmap string analysis → M (gmap string analysis))
  : Prop :=
  ∀ idx c log, ∃ v log', stores body idx c log v log'.

(** The [if not ...: continue] guard at the head of a loop body; the job
    matcher has none. *)
Definition step_guard (s : step) (c : candidate) : bool :=
  match s with
  | ResumeStep => not_ (dict_get c "resume_path")
  | LinkedInStep => not_ (dict_get c "linkedin_url")
  | CoverLetterStep => not_ (dict_get c "cover_letter_path")
  | JobMatchStep => false
  end.

(** The [try] block of a loop body, for a candidate that passed the
    guard. *)
Definition step_try (E : Env) (state : CandidateState) (s : step)
    (idx : nat) (c : candidate) (d : gmap string analysis)
  : M (gmap string analysis) :=
  match s with
  | ResumeStep =>
      analyze_resume_try E (candidate_id idx c)
        (default "" (dict_get c "resume_path")) d
  | LinkedInStep =>
      analyze_linkedin_try E (candidate_id idx c)
        (default "" (dict_get c "linkedin_url")) d
  | CoverLetterStep =>
      analyze_cover_letter_try E (candidate_id idx c)
        (default "" (dict_get c "cover_letter_path")) d
  | JobMatchStep =>
      match_candidates_try E (job_offer state) (candidate_id idx c)
        (dict_get_default (resume_analyses state) (candidate_id idx c)
           (AStr "No resume analysis"))
        (dict_get_default (linkedin_analyses state) (candidate_id idx c)
           (AStr "No LinkedIn analysis"))
        (dict_get_default (cover_letter_analyses state) (candidate_id idx c)
           (AStr "No cover letter analysis")) d
  end.

(** The text a step files for a candidate whose [try] block raised [e]. *)
Definition error_text (s : step) (e : exn) : string :=
  match s with
  | ResumeStep => "Error analyzing resume: " +:+ exn_str e
  | LinkedInStep => "Error analyzing LinkedIn: " +:+ exn_str e
  | CoverLetterStep =>
      match exn_class e with
      | FileNotFoundError => "Cover letter file not found"
      | _ => "Error analyzing cover letter: " +:+ exn_str e
      end
  | JobMatchStep => "Error in job matching: " +:+ exn_str e
  end.

(** The loop body filed [v] without calling the model: a string. *)
Definition filed_without_call (lg : list llm_call) (v : analysis)
    (lg' : list llm_call) : Prop :=
  lg' = lg ∧ ∃ text, v = AStr text.

(** The loop body filed [v] after one model call: from a reply, the job
    matcher files its text content and the three analyzers file the
    reply object; from a raised call, the step's error text. *)
Definition filed_by_call (E : Env) (s : step) (lg : list llm_call)
    (v : analysis) (lg' : list llm_call) : Prop :=
  ∃ prompt,
    lg' = lg ++ [InvokeCall prompt] ∧
    match llm_reply E lg prompt with
    | Ok r =>
        v = match s with
            | JobMatchStep => AStr (content r)
            | _ => AMsg r
            end
    | Raise e => v = AStr (error_text s e)
    end.

(** The step has run: its completion message is in the history. *)
Definition ran (s : step) (state : CandidateState) : Prop :=
  step_name s ∈ markers (messages state).

(** The state is about the candidates [cs], and the dict of every step
    that has run has exactly their keys. *)
Definition filled (cs : list candidate) (state : CandidateState) : Prop :=
  candidates state = cs ∧
  ∀ s, ran s state → dom (step_map s state) = list_to_set (ids cs).

(** The state a computation returns, or [dflt] when it raises. *)
Definition returned {A} (dflt : A) (r : Result A * list llm_call) : A :=
  match r.1 with
  | Ok a => a
  | Raise _ => dflt
  end.

(** The position of a member in the fixed order, and the member at a
    position. *)
Definition member_rank (m : member) : nat :=
  match m with
  | ResumeAnalyzer => 0
  | LinkedInAnalyzer => 1
  | CoverLetterAnalyzer => 2
  | JobMatcher => 3
  | FinalRanker => 4
  end.

Definition member_at (k : nat) : option member :=
  [ResumeAnalyzer; LinkedInAnalyzer; CoverLetterAnalyzer; JobMatcher;
   FinalRanker] !! k.

(** Exactly the first [k] members of the order have their marker. *)
Definition done_prefix (k : nat) (marks : gset string) : Prop :=
  ∀ m, member_name m ∈ marks ↔ member_rank m < k.

(** The function [create_graph] registers under a member's name. *)
Definition member_node (E : Env) (m : member) : CandidateState → M Update :=
  match m with
  | ResumeAnalyzer => analyze_resume E
  | LinkedInAnalyzer => analyze_linkedin E
  | CoverLetterAnalyzer => analyze_cover_letter E
  | JobMatcher => match_candidates E
  | FinalRanker => rank_candidates E
  end.

(** ** Further worlds, for concrete runs *)

Module Worlds.

(** The sample world without network: every page load times out. *)
Definition offline : Env :=
  mk_env Sample.files Sample.parse_url
    (fun _ _ => Raise (mk_exn Exception "timed out"))
    Sample.numbered_reply Sample.rule_router Sample.loads content
    (fun _ => "{}").

(** A world whose parser reads every text as the empty JSON array. *)
Definition arrays : Env :=
  mk_env Sample.files Sample.parse_url (fun _ _ => Ok ["Grace Hopper"; "COBOL"])
    Sample.numbered_reply Sample.rule_router (fun _ => Ok (JList [])) content
    (fun _ => "[]").

(** A world whose model answers every prompt with the empty JSON object. *)
Definition terse : Env :=
  mk_env Sample.files Sample.parse_url (fun _ _ => Ok ["Grace Hopper"; "COBOL"])
    (fun _ _ => Ok (mk_ai "{}" "")) Sample.rule_router Sample.loads content
    (fun _ => "{}").

(** A world whose model answers the first call made on it and fails on
    every later one. *)
Definition flaky : Env :=
  mk_env Sample.files Sample.parse_url (fun _ _ => Ok ["Grace Hopper"; "COBOL"])
    (fun log _ =>
       match log with
       | [] => Ok (mk_ai "ada first" "")
       | _ => Raise (mk_exn Exception "rate limited")
       end)
    Sample.rule_router Sample.loads content (fun _ => "{}").


(** A world whose routing call fails. *)
Definition unrouted : Env :=
  mk_env Sample.files Sample.parse_url (fun _ _ => Ok ["Grace Hopper"; "COBOL"])
    Sample.numbered_reply
    (fun _ _ => Raise (mk_exn Exception "connection refused")) Sample.loads
    content (fun _ => "{}").

(** The sample world with a model client that cannot find its own
    configuration file. *)
Definition unconfigured : Env :=
  mk_env Sample.files Sample.parse_url (fun _ _ => Ok ["Grace Hopper"; "COBOL"])
    (fun _ _ => Raise (mk_exn FileNotFoundError "model config missing"))
    Sample.rule_router Sample.loads content (fun _ => "{}").

End Worlds.

(** ** Vocabulary of the further properties *)

(** The text a step files for a candidate that does not supply the
    step's input; the job matcher has no such case. *)
Definition absent_text (s : step) : string :=
  match s with
  | ResumeStep => "No resume provided"
  | LinkedInStep => "No LinkedIn profile provided"
  | CoverLetterStep => "No cover letter provided (optional)"
  | JobMatchStep => ""
  end.

(** Candidate [c] stands at position [i], and no candidate after it is
    filed under its key. *)
Definition last_with_key (cs : list candidate) (i : nat) (c : candidate)
  : Prop :=
  cs !! i = Some c ∧
  ∀ j c', i < j → cs !! j = Some c' → candidate_id j c' ≠ candidate_id i c.

(** A call of [llm.invoke]. *)
Definition is_invoke (call : llm_call) : Prop :=
  ∃ prompt, call = InvokeCall prompt.

(** The character [c] does not occur in [s]. *)
Fixpoint lacks (c : ascii) (s : string) : bool :=
  match s with
  | String c' s' => negb (bool_decide (c' = c)) && lacks c s'
  | EmptyString => true
  end.

(** The backtick of a code fence. *)
Definition backtick : ascii := ascii_of_nat 96.


(** The result [evaluate_candidates] builds from a final state. *)
Definition evaluation_of (final : CandidateState) : Evaluation :=
  mk_evaluation
    (default (JStr "No report generated")
       (assoc "detailed_report" (final_ranking final)))
    (default (JDict []) (assoc "structured_output" (final_ranking final)))
    (resume_analyses final) (linkedin_analyses final)
    (cover_letter_analyses final) (job_matches final).

(** The names of the messages of a history, in order. *)
Definition names (history : list Message) : list string :=
  omap msg_name history.

(** The prompt of the job matcher for a candidate none of whose analyses
    exists. *)
Definition bare_job_match_prompt (offer : string) : string :=
  job_match_prompt offer "No resume analysis" "No LinkedIn analysis"
    "No cover letter analysis".
(** * Properties *)

(** ** Strings *)

Example split_fence :
  split "x```json {} ```y" "```json" = ["x"; " {} ```y"].
Proof. reflexivity. Qed.

(** ** Blank strings *)

Lemma rstrip_falsy s : falsy (rstrip s) = all_space s.
Proof.
  induction s as [|c s IH]; simpl; [done|].
  destruct (rstrip s) eqn:Hr; simpl in *.
  - rewrite <- IH. by destruct (isspace c).
  - rewrite <- IH. by rewrite andb_false_r.
Qed.

Lemma lstrip_all_space s : all_space (lstrip s) = all_space s.
Proof.
  induction s as [|c s IH]; simpl; [done|].
  destruct (isspace c) eqn:Hc; simpl; [done|]. by rewrite Hc.
Qed.

Lemma strip_falsy s : falsy (strip s) = all_space s.
Proof. unfold strip. by rewrite rstrip_falsy, lstrip_all_space. Qed.

Lemma all_space_app s t : all_space (s +:+ t) = all_space s && all_space t.
Proof.
  induction s as [|c s IH]; simpl; [done|]. by rewrite IH, andb_assoc.
Qed.

Lemma all_space_join sep t ts :
  all_space t = false → all_space (join sep (t :: ts)) = false.
Proof.
  intros Ht. destruct ts as [|u ts]; simpl; [done|].
  by rewrite all_space_app, Ht.
Qed.

(** ** Splitting at code fences *)

Lemma split_go_nonempty sep skip cur s : 1 ≤ length (split_go sep skip cur s).
Proof.
  revert skip cur.
  induction s as [|c s IH]; intros skip cur; cbn [split_go length]; [lia|].
  destruct skip; [|apply IH].
  destruct (String.prefix sep (String c s)); cbn [length]; [lia|apply IH].
Qed.

(** A separator that occurs yields at least two pieces, so the index 1
    of the source exists. *)
Lemma split_contains sep s :
  sep ≠ EmptyString → contains sep s = true → 2 ≤ length (split s sep).
Proof.
  intros Hsep. unfold split. generalize EmptyString as cur.
  induction s as [|c s IH]; intros cur Hc.
  - destruct sep; [done|]. simpl in Hc. done.
  - cbn [contains] in Hc. cbn [split_go].
    destruct (String.prefix sep (String c s)).
    + cbn [length].
      pose proof (split_go_nonempty sep (String.length sep - 1) "" s). lia.
    + apply IH. by rewrite orb_false_l in Hc.
Qed.

Lemma index_split_0 s sep : ∃ piece, index (split s sep) 0 = Ok piece.
Proof.
  unfold index, split.
  pose proof (split_go_nonempty sep 0 "" s) as Hlen.
  destruct (split_go sep 0 "" s) as [|piece l]; simpl in *; [lia|].
  by eexists.
Qed.

Lemma index_split_1 s sep :
  sep ≠ EmptyString → contains sep s = true →
  ∃ piece, index (split s sep) 1 = Ok piece.
Proof.
  intros Hsep Hc. unfold index.
  pose proof (split_contains sep s Hsep Hc) as Hlen.
  destruct (split s sep) as [|p0 [|piece l]]; simpl in *; [lia..|].
  by eexists.
Qed.

(** The fence stripping of the final ranker never raises. *)
Lemma extract_json_str_returns E json_response :
  ∃ text, extract_json_str E json_response = Ok text.
Proof.
  unfold extract_json_str.
  destruct (contains "```json" (str_message E json_response)) eqn:Hj.
  - destruct (index_split_1 _ "```json" ltac:(done) Hj) as (after & ->).
    simpl. destruct (index_split_0 after "```") as (inside & ->).
    by eexists.
  - destruct (contains "```" (str_message E json_response)) eqn:Hf.
    + destruct (index_split_1 _ "```" ltac:(done) Hf) as (after & ->).
      simpl. destruct (index_split_0 after "```") as (inside & ->).
      by eexists.
    + by eexists.
Qed.

(** ** parse_pdf *)

Lemma parse_pdf_page_spec page text_content :
  parse_pdf_page page text_content = Ok (text_content ++ kept_pages [page]).
Proof.
  unfold parse_pdf_page, kept_pages. destruct page as [text|e]; simpl.
  - rewrite strip_falsy. destruct (all_space text); simpl; [|done].
    by rewrite app_nil_r.
  - by rewrite app_nil_r.
Qed.

Lemma parse_pdf_loop pages text_content :
  for_in parse_pdf_page pages text_content
  = Ok (text_content ++ kept_pages pages).
Proof.
  revert text_content.
  induction pages as [|page pages IH]; intros text_content; simpl.
  - by rewrite app_nil_r.
  - rewrite parse_pdf_page_spec. simpl. rewrite IH.
    rewrite <- (assoc_L (++)). do 2 f_equal.
    destruct page as [text|e]; [by destruct (all_space text)|done].
Qed.

Lemma kept_pages_not_blank pages text :
  text ∈ kept_pages pages → all_space text = false.
Proof.
  unfold kept_pages. rewrite list_elem_of_omap.
  intros ([t|e] & _ & Hp); [|done].
  destruct (all_space t) eqn:Ht; naive_solver.
Qed.

(** What [parse_pdf] returns or raises, by what the path holds. *)
Lemma parse_pdf_spec (E : Env) (file_path : string) :
  parse_pdf E file_path =
  match pdf_file E file_path with
  | Missing =>
      Raise (mk_exn FileNotFoundError ("PDF file not found: " +:+ file_path))
  | Unreadable e =>
      match exn_class e with
      | FileNotFoundError => Raise e
      | _ => Raise (mk_exn Exception ("Error parsing PDF: " +:+ exn_str e))
      end
  | Pages pages => Ok (join (nl +:+ nl) (kept_pages pages))
  end.
Proof.
  unfold parse_pdf. destruct (pdf_file E file_path) as [|e|pages]; simpl.
  - done.
  - done.
  - rewrite parse_pdf_loop. simpl. rewrite strip_falsy.
    destruct (kept_pages pages) as [|t ts] eqn:Hk; [done|].
    rewrite all_space_join; [done|].
    apply (kept_pages_not_blank pages). rewrite Hk. left.
Qed.

(** C6, as the code has it: a missing file raises [FileNotFoundError], a
    file that cannot be opened raises the generic error (or its own
    [FileNotFoundError]), and otherwise the call returns the non-blank
    texts of the pages that could be extracted, joined by blank lines;
    pages whose extraction raises are left out and nothing is raised for
    them. *)
Theorem C6_parse_pdf_skips_failed_pages (E : Env) (file_path : string) :
  parse_pdf E file_path =
  match pdf_file E file_path with
  | Missing =>
      Raise (mk_exn FileNotFoundError ("PDF file not found: " +:+ file_path))
  | Unreadable e =>
      match exn_class e with
      | FileNotFoundError => Raise e
      | _ => Raise (mk_exn Exception ("Error parsing PDF: " +:+ exn_str e))
      end
  | Pages pages => Ok (join (nl +:+ nl) (kept_pages pages))
  end.
Proof. apply parse_pdf_spec. Qed.

(** C6 as stated fails: a file whose first page cannot be extracted
    yields the text of its second page, the very result of a file that
    holds that page alone. *)
Lemma C6_partial_text_is_returned :
  ¬ (∀ (E : Env) (file_path : string),
       page_failure (pdf_file E file_path) →
       is_ok (parse_pdf E file_path) = false).
Proof.
  intros H. specialize (H Sample.world "cv/torn.pdf").
  assert (is_ok (parse_pdf Sample.world "cv/torn.pdf") = true) as Hok
    by reflexivity.
  rewrite H in Hok; [done|].
  exists [Raise (mk_exn Exception "bad page"); Ok "page two"],
         (mk_exn Exception "bad page").
  split; [reflexivity|left].
Qed.

(** ** scrape_linkedin *)

(** C8: [scrape_linkedin] returns a string for every input.  An input
    whose parse has a scheme and a network location is loaded through the
    web loader with the fixed class filter and the documents' texts are
    joined; any other input comes back unchanged; an exception of
    [urlparse] or of the loader becomes the error-prefixed string. *)
Theorem C8_scrape_linkedin_never_raises (E : Env) (url_or_text : string) :
  ∃ text,
    scrape_linkedin E url_or_text = Ok text ∧
    match urlparse E url_or_text with
    | Raise e => text = "Error accessing LinkedIn profile: " +:+ exn_str e
    | Ok (scheme, netloc) =>
        if falsy scheme || falsy netloc then text = url_or_text
        else
          match web_load E url_or_text linkedin_classes with
          | Ok docs => text = join (nl +:+ nl) docs
          | Raise e =>
              text = "Error accessing LinkedIn profile: " +:+ exn_str e
          end
    end.
Proof.
  unfold scrape_linkedin.
  destruct (urlparse E url_or_text) as [[scheme netloc]|e]; simpl;
    [|by eexists].
  destruct (falsy scheme), (falsy netloc); simpl; try by eexists.
  destruct (web_load E url_or_text linkedin_classes) as [[|doc docs]|e];
    simpl; by eexists.
Qed.

(** ** Loops over the candidates *)

Ltac run_monad :=
  repeat (unfold mbind, M_bind, mret, M_ret, lift, try_exceptM, llm_invoke,
            Result_bind, Result_ret, try_except in *; simpl in *).

Lemma ids_from_length idx cs : length (ids_from idx cs) = length cs.
Proof. revert idx. induction cs; intros; simpl; [done|]. by rewrite IHcs. Qed.

Lemma ids_from_lookup idx cs i :
  ids_from idx cs !! i = candidate_id (idx + i) <$> cs !! i.
Proof.
  revert idx i. induction cs as [|c cs IH]; intros idx [|i]; simpl; try done.
  - by rewrite Nat.add_0_r.
  - rewrite IH. by replace (S idx + i) with (idx + S i) by lia.
Qed.

Lemma ids_from_app idx cs1 cs2 :
  ids_from idx (cs1 ++ cs2)
  = ids_from idx cs1 ++ ids_from (idx + length cs1) cs2.
Proof.
  revert idx. induction cs1 as [|c cs1 IH]; intros idx; simpl.
  - by rewrite Nat.add_0_r.
  - rewrite IH. by replace (S idx + length cs1) with (idx + S (length cs1))
      by lia.
Qed.

(** Splitting a loop at any point: the second part starts from the dict
    and the calls the first part left. *)
Lemma for_enumerate_app {A S} (body : nat → A → S → M S) idx xs1 xs2 st log :
  for_enumerate body idx (xs1 ++ xs2) st log =
  match for_enumerate body idx xs1 st log with
  | (Ok st1, log1) => for_enumerate body (idx + length xs1) xs2 st1 log1
  | (Raise e, log1) => (Raise e, log1)
  end.
Proof.
  revert idx st log. induction xs1 as [|x xs1 IH]; intros idx st log; simpl.
  - by rewrite Nat.add_0_r.
  - run_monad. destruct (body idx x st log) as [[st1|e] log1]; [|done].
    rewrite IH. by replace (Datatypes.S idx + length xs1)
      with (idx + Datatypes.S (length xs1)) by lia.
Qed.

Section PerCandidate.
Context (body : nat → candidate → gmap string analysis
                → M (gmap string analysis)).
Hypothesis body_per_candidate : per_candidate body.

(** The loop returns; its dict holds the keys it started with and the
    keys of the candidates; a key of no candidate keeps its entry; every
    other entry was filed by the body for a candidate with that key. *)
Lemma for_enumerate_per_candidate cs idx d log :
  ∃ d' log',
    for_enumerate body idx cs d log = (Ok d', log') ∧
    dom d' = dom d ∪ list_to_set (ids_from idx cs) ∧
    (∀ k, k ∉ ids_from idx cs → d' !! k = d !! k) ∧
    (∀ k v, d' !! k = Some v →
       d !! k = Some v ∨
       ∃ i c lg lg', cs !! i = Some c ∧ candidate_id (idx + i) c = k ∧
                     stores body (idx + i) c lg v lg').
Proof.
  revert idx d log. induction cs as [|c cs IH]; intros idx d log; simpl.
  - exists d, log. split_and!; [done|set_solver|done|by left].
  - destruct (body_per_candidate idx c log) as (v & log1 & Hst).
    run_monad. rewrite (Hst d).
    destruct (IH (S idx) (<[candidate_id idx c := v]> d) log1)
      as (d' & log' & Hrun & Hdom & Hkeep & Horigin).
    exists d', log'. split_and!.
    + done.
    + rewrite Hdom, dom_insert_L. set_solver.
    + intros k Hk. rewrite Hkeep by set_solver.
      apply lookup_insert_ne. set_solver.
    + intros k w Hw. destruct (Horigin k w Hw) as [Hd|(i & c' & lg & lg' & ?)].
      * destruct (decide (candidate_id idx c = k)) as [<-|Hne].
        -- rewrite lookup_insert_eq in Hd. injection Hd as <-.
           right. exists 0, c, log, log1. rewrite Nat.add_0_r. done.
        -- rewrite lookup_insert_ne in Hd by done. by left.
      * right. exists (S i), c', lg, lg'.
        replace (idx + S i) with (S idx + i) by lia. done.
Qed.

End PerCandidate.

(** ** The four loop bodies handle each candidate on its own *)

Lemma analyze_resume_body_per_candidate E :
  per_candidate (analyze_resume_body E).
Proof.
  intros idx c log. unfold stores, analyze_resume_body, candidate_id.
  destruct (not_ (dict_get c "resume_path")); [by eexists _, _|].
  unfold analyze_resume_try, analyze_resume_except. run_monad.
  destruct (parse_pdf E _) as [text|e]; [|by eexists _, _].
  destruct (llm_reply E log _) as [r|e]; by eexists _, _.
Qed.

Lemma analyze_linkedin_body_per_candidate E :
  per_candidate (analyze_linkedin_body E).
Proof.
  intros idx c log. unfold stores, analyze_linkedin_body, candidate_id.
  destruct (not_ (dict_get c "linkedin_url")); [by eexists _, _|].
  unfold analyze_linkedin_try, analyze_linkedin_except. run_monad.
  destruct (scrape_linkedin E _) as [text|e]; [|by eexists _, _].
  destruct (falsy text || startswith text "Error"); [by eexists _, _|].
  run_monad. destruct (llm_reply E log _) as [r|e]; by eexists _, _.
Qed.

Lemma analyze_cover_letter_body_per_candidate E :
  per_candidate (analyze_cover_letter_body E).
Proof.
  intros idx c log. unfold stores, analyze_cover_letter_body, candidate_id.
  destruct (not_ (dict_get c "cover_letter_path")); [by eexists _, _|].
  unfold analyze_cover_letter_try, analyze_cover_letter_except. run_monad.
  destruct (parse_pdf E _) as [text|e].
  - destruct (falsy (strip text)); [by eexists _, _|].
    run_monad. destruct (llm_reply E log _) as [r|e]; [by eexists _, _|].
    destruct (exn_class e); by eexists _, _.
  - destruct (exn_class e); by eexists _, _.
Qed.

Lemma match_candidates_body_per_candidate E state :
  per_candidate (match_candidates_body E state).
Proof.
  intros idx c log. unfold stores, match_candidates_body, candidate_id.
  unfold match_candidates_try, match_candidates_except. run_monad.
  destruct (llm_reply E log _) as [r|e]; by eexists _, _.
Qed.

Lemma step_body_per_candidate E state s : per_candidate (step_body E state s).
Proof.
  destruct s; simpl;
    auto using analyze_resume_body_per_candidate,
      analyze_linkedin_body_per_candidate,
      analyze_cover_letter_body_per_candidate,
      match_candidates_body_per_candidate.
Qed.

(** What a body files is determined by the candidate and the calls made
    so far. *)
Lemma Ok_inj {A} (a b : A) : Ok a = Ok b → a = b.
Proof. congruence. Qed.

Lemma stores_functional body idx c log v1 log1 v2 log2 :
  stores body idx c log v1 log1 → stores body idx c log v2 log2 →
  v1 = v2 ∧ log1 = log2.
Proof.
  intros H1 H2. specialize (H1 ∅). rewrite (H2 ∅) in H1.
  assert (log2 = log1) as -> by exact (f_equal snd H1).
  apply (f_equal fst), Ok_inj in H1. simpl in H1.
  apply (f_equal (fun m => m !! candidate_id idx c)) in H1.
  rewrite !lookup_insert_eq in H1. split; congruence.
Qed.

(** Each agent is its loop followed by the summary message. *)
Lemma step_agent_unfold E s state log :
  ∃ text : nat → string,
    step_agent E s state log =
    match for_enumerate (step_body E state s) 0 (candidates state) ∅ log with
    | (Ok d, log') =>
        (Ok (mk_update [HumanMessage (text (size d)) (step_name s)]
               (match s with ResumeStep => Some d | _ => None end)
               (match s with LinkedInStep => Some d | _ => None end)
               (match s with CoverLetterStep => Some d | _ => None end)
               (match s with JobMatchStep => Some d | _ => None end)
               None None), log')
    | (Raise e, log') => (Raise e, log')
    end.
Proof.
  destruct s; simpl;
    unfold analyze_resume, analyze_linkedin, analyze_cover_letter,
      match_candidates; run_monad.
  - exists (fun n => "Resume Analyzer: Completed analysis of " +:+ pretty n
                     +:+ " candidate resumes.").
    by destruct (for_enumerate _ _ _ _ _) as [[d|e] log'].
  - exists (fun n => "LinkedIn Analyzer: Completed analysis of " +:+ pretty n
                     +:+ " LinkedIn profiles.").
    by destruct (for_enumerate _ _ _ _ _) as [[d|e] log'].
  - exists (fun n => "Cover Letter Analyzer: Completed analysis of "
                     +:+ pretty n +:+ " cover letters.").
    by destruct (for_enumerate _ _ _ _ _) as [[d|e] log'].
  - exists (fun n => "Job Matcher: Completed matching analysis for "
                     +:+ pretty n +:+ " candidates against the job offer.").
    by destruct (for_enumerate _ _ _ _ _) as [[d|e] log'].
Qed.

Lemma candidate_id_in_ids cs i c :
  cs !! i = Some c → candidate_id i c ∈ ids cs.
Proof.
  intros Hc. apply list_elem_of_lookup. exists i.
  unfold ids. by rewrite ids_from_lookup, Hc.
Qed.

(** An agent returns its dict and its message; the dict has the keys of
    the candidates, each entry filed by the loop body for a candidate. *)
Lemma step_agent_returns E s state log :
  ∃ u d log',
    step_agent E s state log = (Ok u, log') ∧
    for_enumerate (step_body E state s) 0 (candidates state) ∅ log
      = (Ok d, log') ∧
    step_output s u = Some d ∧
    (∀ s', s' ≠ s → step_output s' u = None) ∧
    u_final_ranking u = None ∧ u_next u = None ∧
    (∃ text, u_messages u = [HumanMessage text (step_name s)]) ∧
    dom d = list_to_set (ids (candidates state)) ∧
    (∀ k v, d !! k = Some v →
       ∃ i c lg lg', candidates state !! i = Some c ∧ candidate_id i c = k ∧
                     stores (step_body E state s) i c lg v lg').
Proof.
  destruct (step_agent_unfold E s state log) as (text & Hagent).
  destruct (for_enumerate_per_candidate _ (step_body_per_candidate E state s)
              (candidates state) 0 ∅ log)
    as (d & log' & Hloop & Hdom & _ & Horigin).
  rewrite Hloop in Hagent. eexists _, d, log'. split_and!; try done.
  - by destruct s.
  - intros s' Hs'. by destruct s, s'.
  - by eexists.
  - rewrite Hdom, dom_empty_L. by rewrite (left_id_L ∅ (∪)).
  - intros k v Hk. destruct (Horigin k v Hk) as [Hd|Hd]; [|done].
    by rewrite lookup_empty in Hd.
Qed.

Lemma step_body_try E state s idx c d log :
  step_guard s c = false →
  step_body E state s idx c d log
  = match step_try E state s idx c d log with
    | (Ok d', log') => (Ok d', log')
    | (Raise e, log') =>
        (Ok (<[candidate_id idx c := AStr (error_text s e)]> d), log')
    end.
Proof.
  intros Hg. destruct s; simpl in *.
  - unfold analyze_resume_body. rewrite Hg. unfold try_exceptM.
    by destruct (analyze_resume_try _ _ _ _ _) as [[d'|e] log'].
  - unfold analyze_linkedin_body. rewrite Hg. unfold try_exceptM.
    by destruct (analyze_linkedin_try _ _ _ _ _) as [[d'|e] log'].
  - unfold analyze_cover_letter_body. rewrite Hg. unfold try_exceptM.
    destruct (analyze_cover_letter_try _ _ _ _ _) as [[d'|e] log']; [done|].
    unfold analyze_cover_letter_except. by destruct (exn_class e).
  - unfold match_candidates_body, try_exceptM.
    by destruct (match_candidates_try _ _ _ _ _) as [[d'|e] log'].
Qed.

(** C5: each per-candidate step returns normally with its completion
    message, whatever the extractors and the model do; its dict has an
    entry for every candidate; and a candidate whose [try] block raises
    (an extraction error or a model-call error) gets the step's error
    text as a string entry, the loop body returning normally so that the
    loop goes on to the next candidate. *)
Theorem C5_step_contains_candidate_failures (E : Env) (s : step)
    (state : CandidateState) (log : list llm_call) :
  (∃ u d log',
     step_agent E s state log = (Ok u, log') ∧
     (∃ text, u_messages u = [HumanMessage text (step_name s)]) ∧
     step_output s u = Some d ∧
     (∀ i c, candidates state !! i = Some c →
             is_Some (d !! candidate_id i c))) ∧
  (∀ idx c d lg e lg',
     step_guard s c = false →
     step_try E state s idx c d lg = (Raise e, lg') →
     step_body E state s idx c d lg
     = (Ok (<[candidate_id idx c := AStr (error_text s e)]> d), lg')) ∧
  (∀ cs1 c cs2 d lg,
     ∃ d1 lg1 v lg2,
       for_enumerate (step_body E state s) 0 cs1 d lg = (Ok d1, lg1) ∧
       stores (step_body E state s) (length cs1) c lg1 v lg2 ∧
       for_enumerate (step_body E state s) 0 (cs1 ++ c :: cs2) d lg
       = for_enumerate (step_body E state s) (S (length cs1)) cs2
           (<[candidate_id (length cs1) c := v]> d1) lg2).
Proof.
  split_and!.
  - destruct (step_agent_returns E s state log)
      as (u & d & log' & Hrun & _ & Hout & _ & _ & _ & Hmsg & Hdom & _).
    exists u, d, log'. split_and!; try done.
    intros i c Hc. apply elem_of_dom. rewrite Hdom.
    apply elem_of_list_to_set. by apply candidate_id_in_ids.
  - intros idx c d lg e lg' Hg Htry.
    by rewrite step_body_try, Htry.
  - intros cs1 c cs2 d lg.
    destruct (for_enumerate_per_candidate _ (step_body_per_candidate E state s)
                cs1 0 d lg) as (d1 & lg1 & Hloop & _).
    destruct (step_body_per_candidate E state s (length cs1) c lg1)
      as (v & lg2 & Hst).
    exists d1, lg1, v, lg2. split_and!; try done.
    rewrite for_enumerate_app, Hloop. simpl. run_monad. by rewrite (Hst d1).
Qed.

(** A concrete failure: with the model down, the resume of the first
    sample candidate is filed as the step's error text. *)
Lemma C5_model_down_witness :
  step_body Sample.down (initial_state "dev" [Sample.ada]) ResumeStep 0
    Sample.ada ∅ []
  = (Ok (<[ "ada" := AStr "Error analyzing resume: connection refused" ]> ∅),
     [InvokeCall (resume_prompt "Ada: Python, Rocq")]).
Proof.
  exact (proj1 (proj2 (C5_step_contains_candidate_failures Sample.down
                         ResumeStep (initial_state "dev" [Sample.ada]) []))
           0 Sample.ada ∅ [] (mk_exn Exception "connection refused")
           [InvokeCall (resume_prompt "Ada: Python, Rocq")]
           eq_refl eq_refl).
Defined.

(** ** Sizes of the analysis dicts *)

Lemma size_list_to_set_le (l : list string) :
  size (list_to_set l : gset string) ≤ length l.
Proof.
  induction l as [|x l IH].
  - rewrite list_to_set_nil, size_empty. simpl. lia.
  - rewrite list_to_set_cons, size_union_alt, size_singleton. simpl.
    assert (size (list_to_set l ∖ {[x]} : gset string)
            ≤ size (list_to_set l : gset string)); [|lia].
    apply subseteq_size. set_solver.
Qed.

Lemma size_list_to_set_dup (l1 l2 l3 : list string) k :
  size (list_to_set (l1 ++ k :: l2 ++ k :: l3) : gset string)
  < length (l1 ++ k :: l2 ++ k :: l3).
Proof.
  assert ((list_to_set (l1 ++ k :: l2 ++ k :: l3) : gset string)
          = list_to_set (l1 ++ k :: l2 ++ l3)) as ->.
  { apply set_eq. intros x.
    rewrite !elem_of_list_to_set, !elem_of_app, !elem_of_cons, !elem_of_app,
      !elem_of_cons. naive_solver. }
  pose proof (size_list_to_set_le (l1 ++ k :: l2 ++ l3)) as Hle.
  revert Hle. rewrite !length_app. simpl. rewrite !length_app. simpl. lia.
Qed.

(** C4 for one step: with pairwise distinct keys the dict an agent
    returns has one entry per candidate. *)
Lemma step_agent_size E s state log :
  NoDup (ids (candidates state)) →
  ∃ u d log',
    step_agent E s state log = (Ok u, log') ∧ step_output s u = Some d ∧
    size d = length (candidates state).
Proof.
  intros Hnd.
  destruct (step_agent_returns E s state log)
    as (u & d & log' & Hrun & _ & Hout & _ & _ & _ & _ & Hdom & _).
  exists u, d, log'. split_and!; try done.
  rewrite <- size_dom, Hdom, size_list_to_set by done.
  apply ids_from_length.
Qed.

(** ** Shared keys *)

(** C9: when two candidates are filed under the same key [k], and no
    later candidate is, a per-candidate step returns a dict whose entry
    at [k] is what the loop body files for the later of the two, at the
    point where the loop reaches it; the dict has fewer entries than
    there are candidates. *)
Theorem C9_shared_key_last_write_wins (E : Env) (s : step)
    (state : CandidateState) (log : list llm_call)
    (cs1 cs2 cs3 : list candidate) (c1 c2 : candidate) (k : string) :
  candidates state = cs1 ++ c1 :: cs2 ++ c2 :: cs3 →
  candidate_id (length cs1) c1 = k →
  candidate_id (length (cs1 ++ c1 :: cs2)) c2 = k →
  k ∉ ids_from (S (length (cs1 ++ c1 :: cs2))) cs3 →
  ∃ u d log' d2 lg2 v lg3,
    step_agent E s state log = (Ok u, log') ∧
    step_output s u = Some d ∧
    for_enumerate (step_body E state s) 0 (cs1 ++ c1 :: cs2) ∅ log
      = (Ok d2, lg2) ∧
    stores (step_body E state s) (length (cs1 ++ c1 :: cs2)) c2 lg2 v lg3 ∧
    d !! k = Some v ∧
    size d < length (candidates state).
Proof.
  intros Hcs Hk1 Hk2 Hlater.
  destruct (step_agent_returns E s state log)
    as (u & d & log' & Hrun & Hloop & Hout & _ & _ & _ & _ & Hdom & _).
  pose proof (step_body_per_candidate E state s) as Hpc.
  set (pre := cs1 ++ c1 :: cs2) in *.
  destruct (for_enumerate_per_candidate _ Hpc pre 0 ∅ log)
    as (d2 & lg2 & Hpre & _).
  destruct (Hpc (length pre) c2 lg2) as (v & lg3 & Hst).
  destruct (for_enumerate_per_candidate _ Hpc cs3 (S (length pre))
              (<[k := v]> d2) lg3) as (d3 & lg4 & Hrest & _ & Hkeep & _).
  exists u, d, log', d2, lg2, v, lg3. split_and!; try done.
  - assert (candidates state = pre ++ c2 :: cs3) as Hsplit.
    { rewrite Hcs. unfold pre. by rewrite <- (assoc_L (++)). }
    rewrite Hsplit, for_enumerate_app, Hpre in Hloop. simpl in Hloop.
    run_monad. rewrite (Hst d2), Hk2, Hrest in Hloop.
    assert (d = d3) as -> by (apply Ok_inj; exact (f_equal fst (eq_sym Hloop))).
    rewrite Hkeep by done. apply lookup_insert_eq.
  - rewrite <- size_dom, Hdom, Hcs. unfold ids.
    rewrite ids_from_app. simpl. rewrite ids_from_app. simpl.
    rewrite Hk1.
    replace (candidate_id (S (length cs1 + length cs2)) c2) with k.
    + rewrite <- (ids_from_length 0 (cs1 ++ c1 :: cs2 ++ c2 :: cs3)).
      rewrite ids_from_app. simpl. rewrite ids_from_app. simpl.
      rewrite Hk1.
      replace (candidate_id (S (length cs1 + length cs2)) c2) with k.
      * apply size_list_to_set_dup.
      * rewrite <- Hk2. unfold pre. rewrite length_app. simpl.
        f_equal. lia.
    + rewrite <- Hk2. unfold pre. rewrite length_app. simpl. f_equal. lia.
Qed.

(** Three candidates, the third filed under the key of the first. *)
Lemma C9_shared_key_witness :
  ∃ u d log' d2 lg2 v lg3,
    step_agent Sample.world ResumeStep
      (initial_state "dev" [Sample.ada; Sample.bob; Sample.eve]) []
      = (Ok u, log') ∧
    step_output ResumeStep u = Some d ∧
    for_enumerate
      (step_body Sample.world
         (initial_state "dev" [Sample.ada; Sample.bob; Sample.eve])
         ResumeStep) 0 [Sample.ada; Sample.bob] ∅ [] = (Ok d2, lg2) ∧
    stores
      (step_body Sample.world
         (initial_state "dev" [Sample.ada; Sample.bob; Sample.eve])
         ResumeStep) 2 Sample.eve lg2 v lg3 ∧
    d !! "ada" = Some v ∧
    size d < 3.
Proof.
  apply (C9_shared_key_last_write_wins Sample.world ResumeStep
           (initial_state "dev" [Sample.ada; Sample.bob; Sample.eve]) []
           [] [Sample.bob] [] Sample.ada Sample.eve "ada").
  - reflexivity.
  - reflexivity.
  - reflexivity.
  - apply not_elem_of_nil.
Defined.

(** ** The final ranker *)

Lemma rank_candidates_summary_loop E state cs idx acc log :
  ∃ l, for_enumerate (rank_candidates_summary E state) idx cs acc log
       = (Ok l, log).
Proof.
  revert idx acc. induction cs as [|c cs IH]; intros idx acc; simpl.
  - by eexists.
  - unfold rank_candidates_summary at 1. run_monad. apply IH.
Qed.

(** The report phase is one model call, on the prompt built from the
    summaries. *)
Lemma rank_candidates_report_call E state log :
  ∃ prompt,
    rank_candidates_report E state log
    = (llm_reply E log prompt, log ++ [InvokeCall prompt]).
Proof.
  unfold rank_candidates_report. run_monad.
  destruct (rank_candidates_summary_loop E state (candidates state) 0 [] log)
    as (l & ->).
  by eexists.
Qed.

(** When the [try] block returns, it returns the completion message and a
    ranking whose report is the text of the first reply. *)
Lemma rank_candidates_try_ok E state log u log' :
  rank_candidates_try E state log = (Ok u, log') →
  ∃ text r lg so,
    rank_candidates_report E state log = (Ok r, lg) ∧
    u = mk_update [HumanMessage text "FinalRanker"] None None None None
          (Some [("detailed_report", JStr (str_message E r));
                 ("structured_output", so)]) None.
Proof.
  unfold rank_candidates_try. run_monad.
  destruct (rank_candidates_report E state log) as [[r|e] lg]; [|done].
  destruct (llm_reply E lg _) as [r2|e]; [|done].
  destruct (parse_structured_output E _ r2) as [so|e]; [|done].
  destruct (json_get so _ _) as [top|e]; [|done].
  intros [= <- <-]. by eexists _, _, _, _.
Qed.

(** The final ranker returns in every case, with its message and a
    ranking and no other key. *)
Lemma rank_candidates_returns E state log :
  ∃ u log' text fr,
    rank_candidates E state log = (Ok u, log') ∧
    u = mk_update [HumanMessage text "FinalRanker"] None None None None
          (Some fr) None ∧
    (∀ e lg,
       rank_candidates_try E state log = (Raise e, lg) →
       text = "Final Ranker: Error - " +:+ exn_str e ∧
       fr = [("detailed_report",
              JStr ("Error generating ranking: " +:+ exn_str e));
             ("structured_output", JDict [("error", JStr (exn_str e))])]).
Proof.
  unfold rank_candidates, try_exceptM.
  destruct (rank_candidates_try E state log) as [[u|e] lg] eqn:Htry.
  - destruct (rank_candidates_try_ok E state log u lg Htry)
      as (text & r & lg1 & so & _ & ->).
    eexists _, _, _, _. split_and!; done.
  - unfold rank_candidates_except. run_monad.
    eexists _, _, _, _. split_and!; try done.
    by intros e' lg' [= <- <-].
Qed.

(** C7: [rank_candidates] returns for every state, every model and every
    parser, with a message named after it and a final ranking.  When its
    [try] block raises, in particular when the call for the free-text
    report raises, the ranking is the error-shaped one: the error text as
    report, an error object as structured output. *)
Theorem C7_rank_candidates_never_raises (E : Env) (state : CandidateState)
    (log : list llm_call) :
  ∃ u log' text fr,
    rank_candidates E state log = (Ok u, log') ∧
    u = mk_update [HumanMessage text "FinalRanker"] None None None None
          (Some fr) None ∧
    (∀ e lg,
       rank_candidates_try E state log = (Raise e, lg) →
       text = "Final Ranker: Error - " +:+ exn_str e ∧
       fr = [("detailed_report",
              JStr ("Error generating ranking: " +:+ exn_str e));
             ("structured_output", JDict [("error", JStr (exn_str e))])]) ∧
    (∃ prompt, ∀ e,
       llm_reply E log prompt = Raise e →
       rank_candidates_try E state log
       = (Raise e, log ++ [InvokeCall prompt])).
Proof.
  destruct (rank_candidates_returns E state log)
    as (u & log' & text & fr & Hrun & Hu & Herr).
  exists u, log', text, fr. split_and!; try done.
  destruct (rank_candidates_report_call E state log) as (prompt & Hrep).
  exists prompt. intros e He. unfold rank_candidates_try. run_monad.
  by rewrite Hrep, He.
Qed.

(** With the model down the final ranker returns the error-shaped
    ranking. *)
Lemma C7_model_down_witness :
  ∃ prompt,
    rank_candidates_try Sample.down (initial_state "dev" [Sample.ada]) []
    = (Raise (mk_exn Exception "connection refused"), [InvokeCall prompt]).
Proof.
  destruct (C7_rank_candidates_never_raises Sample.down
              (initial_state "dev" [Sample.ada]) [])
    as (u & log' & text & fr & _ & _ & _ & prompt & Hcall).
  exists prompt. apply Hcall. reflexivity.
Defined.

(** C2: if both model calls of the final ranker return and the text
    extracted from the second reply is rejected by [json.loads] with a
    [JSONDecodeError], the step returns normally, and the structured
    output of its ranking is the fallback: one entry per candidate in
    input order, with the candidate's key, rank position + 1, score 0,
    recommendation "Unable to parse" and empty strengths and weaknesses;
    the key of the first candidate (or None without candidates) as top
    recommendation; and the fixed summary. *)
Theorem C2_fallback_on_malformed_json (E : Env) (state : CandidateState)
    (log lg1 : list llm_call) (r1 r2 : AIMessage) (text : string) (e : exn) :
  rank_candidates_report E state log = (Ok r1, lg1) →
  llm_reply E lg1 (json_prompt (str_message E r1)) = Ok r2 →
  extract_json_str E r2 = Ok text →
  json_loads E text = Raise e →
  exn_class e = JSONDecodeError →
  ∃ message log' rankings,
    rank_candidates E state log
    = (Ok (mk_update [HumanMessage message "FinalRanker"] None None None None
             (Some [("detailed_report", JStr (str_message E r1));
                    ("structured_output",
                     JDict [("rankings", JList rankings);
                            ("top_recommendation",
                             match candidates state !! 0 with
                             | Some c => JStr (candidate_id 0 c)
                             | None => JNone
                             end);
                            ("summary",
                             JStr "Error parsing structured output")])])
             None), log') ∧
    length rankings = length (candidates state) ∧
    ∀ i c,
      candidates state !! i = Some c →
      rankings !! i
      = Some (JDict [("candidate_id", JStr (candidate_id i c));
                     ("rank", JInt (Z.of_nat i + 1));
                     ("score", JInt 0);
                     ("recommendation", JStr "Unable to parse");
                     ("key_strengths", JList []);
                     ("key_weaknesses", JList [])]).
Proof.
  intros Hrep Hr2 Htext Hloads Hclass.
  exists ("Final Ranker: Completed ranking of "
          +:+ pretty (length (candidates state))
          +:+ " candidates. Top recommendation: "
          +:+ py_str E match candidates state !! 0 with
                       | Some c => JStr (candidate_id 0 c)
                       | None => JNone
                       end),
         (lg1 ++ [InvokeCall (json_prompt (str_message E r1))]),
         (imap fallback_entry (candidates state)).
  split_and!.
  - unfold rank_candidates, try_exceptM, rank_candidates_try. run_monad.
    rewrite Hrep, Hr2. unfold parse_structured_output. run_monad.
    rewrite Htext, Hloads, Hclass. simpl.
    destruct (candidates state) as [|c cs]; reflexivity.
  - apply length_imap.
  - intros i c Hc. rewrite list_lookup_imap, Hc. reflexivity.
Qed.

(** Two sample candidates and a model whose second reply is no JSON. *)
Lemma C2_fallback_witness :
  ∃ message log' rankings,
    rank_candidates Sample.world (initial_state "dev" [Sample.ada; Sample.bob])
      []
    = (Ok (mk_update [HumanMessage message "FinalRanker"] None None None None
             (Some [("detailed_report", JStr "reply 0");
                    ("structured_output",
                     JDict [("rankings", JList rankings);
                            ("top_recommendation", JStr "ada");
                            ("summary",
                             JStr "Error parsing structured output")])])
             None), log') ∧
    length rankings = 2 ∧
    ∀ i c,
      [Sample.ada; Sample.bob] !! i = Some c →
      rankings !! i
      = Some (JDict [("candidate_id", JStr (candidate_id i c));
                     ("rank", JInt (Z.of_nat i + 1));
                     ("score", JInt 0);
                     ("recommendation", JStr "Unable to parse");
                     ("key_strengths", JList []);
                     ("key_weaknesses", JList [])]).
Proof.
  apply (C2_fallback_on_malformed_json Sample.world
           (initial_state "dev" [Sample.ada; Sample.bob]) []
           (rank_candidates_report Sample.world
              (initial_state "dev" [Sample.ada; Sample.bob]) []).2
           (mk_ai "reply 0" "") (mk_ai "reply 1" "") "reply 1"
           (mk_exn JSONDecodeError "Expecting value: line 1 column 1 (char 0)")).
  - vm_compute. reflexivity.
  - reflexivity.
  - reflexivity.
  - reflexivity.
  - reflexivity.
Defined.

(** ** What the dicts hold *)

Lemma step_body_cases E state s idx c lg :
  ∃ v lg',
    stores (step_body E state s) idx c lg v lg' ∧
    (s ≠ JobMatchStep ∧ filed_without_call lg v lg' ∨
     filed_by_call E s lg v lg').
Proof.
  unfold stores, filed_without_call, filed_by_call.
  destruct s; simpl.
  - unfold analyze_resume_body, candidate_id.
    destruct (not_ (dict_get c "resume_path")).
    { eexists _, _. split; [done|]. left. eauto. }
    unfold analyze_resume_try, analyze_resume_except. run_monad.
    destruct (parse_pdf E _) as [text|e].
    + destruct (llm_reply E lg (resume_prompt text)) as [r|e] eqn:Hr;
        (eexists _, _; split; [done|]; right; eexists; split; [done|]);
        by rewrite Hr.
    + eexists _, _. split; [done|]. left. eauto.
  - unfold analyze_linkedin_body, candidate_id.
    destruct (not_ (dict_get c "linkedin_url")).
    { eexists _, _. split; [done|]. left. eauto. }
    unfold analyze_linkedin_try, analyze_linkedin_except. run_monad.
    destruct (scrape_linkedin E _) as [text|e].
    + destruct (falsy text || startswith text "Error").
      { eexists _, _. split; [done|]. left. eauto. }
      run_monad.
      destruct (llm_reply E lg (linkedin_prompt text)) as [r|e] eqn:Hr;
        (eexists _, _; split; [done|]; right; eexists; split; [done|]);
        by rewrite Hr.
    + eexists _, _. split; [done|]. left. eauto.
  - unfold analyze_cover_letter_body, candidate_id.
    destruct (not_ (dict_get c "cover_letter_path")).
    { eexists _, _. split; [done|]. left. eauto. }
    unfold analyze_cover_letter_try, analyze_cover_letter_except. run_monad.
    destruct (parse_pdf E _) as [text|e].
    + destruct (falsy (strip text)).
      { eexists _, _. split; [done|]. left. eauto. }
      run_monad.
      destruct (llm_reply E lg (cover_letter_prompt text)) as [r|e] eqn:Hr.
      * eexists _, _. split; [done|]. right. eexists. split; [done|].
        by rewrite Hr.
      * destruct (exn_class e) eqn:Hc;
          (eexists _, _; split; [done|]; right; eexists; split; [done|]);
          rewrite Hr; simpl; by rewrite Hc.
    + destruct (exn_class e); eexists _, _; (split; [done|]); left; eauto.
  - unfold match_candidates_body, candidate_id, match_candidates_try,
      match_candidates_except. run_monad.
    match goal with |- context [llm_reply E lg ?p] =>
      destruct (llm_reply E lg p) as [r|e] eqn:Hr end;
      (eexists _, _; split; [done|]; right; eexists; split; [done|]);
      by rewrite Hr.
Qed.

(** C10: a loop body files either a string without calling the model (a
    sentinel or an error text; never so in the job matcher), or the
    outcome of one model call: for a reply, the job matcher files the
    reply's text content as a string and the resume, LinkedIn and cover
    letter steps file the reply object itself; for a raised call, the
    error text.  Every entry of the dict an agent returns was filed in
    one of these ways for a candidate with that key.  The final ranker
    stores the string rendering of the first reply as its detailed
    report. *)
Theorem C10_reply_object_or_text (E : Env) (state : CandidateState)
    (log : list llm_call) (s : step) :
  (∀ idx c lg,
     ∃ v lg',
       stores (step_body E state s) idx c lg v lg' ∧
       (s ≠ JobMatchStep ∧ filed_without_call lg v lg' ∨
        filed_by_call E s lg v lg')) ∧
  (∃ u d log',
     step_agent E s state log = (Ok u, log') ∧ step_output s u = Some d ∧
     ∀ k v,
       d !! k = Some v →
       ∃ i c lg lg',
         candidates state !! i = Some c ∧ candidate_id i c = k ∧
         (s ≠ JobMatchStep ∧ filed_without_call lg v lg' ∨
          filed_by_call E s lg v lg')) ∧
  (∀ u log',
     rank_candidates_try E state log = (Ok u, log') →
     ∃ r lg fr,
       rank_candidates_report E state log = (Ok r, lg) ∧
       u_final_ranking u = Some fr ∧
       assoc "detailed_report" fr = Some (JStr (str_message E r))).
Proof.
  split_and!.
  - intros idx c lg. apply step_body_cases.
  - destruct (step_agent_returns E s state log)
      as (u & d & log' & Hrun & _ & Hout & _ & _ & _ & _ & _ & Horigin).
    exists u, d, log'. split_and!; try done.
    intros k v Hk. destruct (Horigin k v Hk) as (i & c & lg & lg' & ? & ? & Hst).
    destruct (step_body_cases E state s i c lg) as (v' & lg'' & Hst' & Hcase).
    destruct (stores_functional _ _ _ _ _ _ _ _ Hst Hst') as [-> ->].
    by exists i, c, lg, lg''.
  - intros u log' Htry.
    destruct (rank_candidates_try_ok E state log u log' Htry)
      as (text & r & lg & so & Hrep & ->).
    eexists r, lg, _. split_and!; try done.
Qed.

(** The sample world: the final ranker's report is the rendering of the
    reply to its first call. *)
Lemma C10_report_witness :
  ∃ r lg fr,
    rank_candidates_report Sample.world
      (initial_state "dev" [Sample.ada; Sample.bob]) [] = (Ok r, lg) ∧
    u_final_ranking
      (match (rank_candidates_try Sample.world
                (initial_state "dev" [Sample.ada; Sample.bob]) []).1 with
       | Ok u => u
       | Raise _ => no_update
       end) = Some fr ∧
    assoc "detailed_report" fr = Some (JStr (content r)).
Proof.
  apply (proj2 (proj2 (C10_reply_object_or_text Sample.world
                         (initial_state "dev" [Sample.ada; Sample.bob]) []
                         ResumeStep))
           _ (rank_candidates_try Sample.world
                (initial_state "dev" [Sample.ada; Sample.bob]) []).2).
  vm_compute. reflexivity.
Defined.

(** ** Absent and empty inputs *)

(** An absent (or empty) resume path is filed as "No resume provided"
    without touching the file system or the model. *)
Lemma resume_absent_path E idx c d lg :
  not_ (dict_get c "resume_path") = true →
  analyze_resume_body E idx c d lg
  = (Ok (<[candidate_id idx c := AStr "No resume provided"]> d), lg).
Proof. intros H. unfold analyze_resume_body. by rewrite H. Qed.

(** A resume path that names no file is filed as the error text of the
    [FileNotFoundError], without a model call. *)
Lemma resume_missing_file E idx c d lg path :
  dict_get c "resume_path" = Some path → falsy path = false →
  pdf_file E path = Missing →
  analyze_resume_body E idx c d lg
  = (Ok (<[candidate_id idx c :=
             AStr ("Error analyzing resume: PDF file not found: " +:+ path)]>
           d), lg).
Proof.
  intros Hp Hf Hm. unfold analyze_resume_body, analyze_resume_try. run_monad.
  rewrite Hp. simpl. rewrite Hf.
  rewrite parse_pdf_spec, Hm. done.
Qed.

(** A resume whose extracted text is empty is sent to the model all the
    same: the body makes one call on the prompt with the empty resume. *)
Lemma resume_empty_text_calls_model E idx c d lg path :
  dict_get c "resume_path" = Some path → falsy path = false →
  parse_pdf E path = Ok "" →
  analyze_resume_body E idx c d lg
  = (Ok (<[candidate_id idx c :=
             match llm_reply E lg (resume_prompt "") with
             | Ok r => AMsg r
             | Raise e => AStr ("Error analyzing resume: " +:+ exn_str e)
             end]> d),
     lg ++ [InvokeCall (resume_prompt "")]).
Proof.
  intros Hp Hf Hparse.
  unfold analyze_resume_body, analyze_resume_try, analyze_resume_except.
  run_monad. rewrite Hp. simpl. rewrite Hf, Hparse.
  by destruct (llm_reply E lg (resume_prompt "")).
Qed.

(** C3 at a resume whose only page is blank: [parse_pdf] returns the
    empty string, and the resume step does not file a sentinel; it sends
    the prompt with the empty resume to the model and files the reply.
    The cover letter step, given the same file, files "Cover letter file
    is empty" without a model call. *)
Theorem C3_resume_blank_text_reaches_model :
  parse_pdf Sample.world "cv/blank.pdf" = Ok "" ∧
  analyze_resume_body Sample.world 0 Sample.bob ∅ []
  = (Ok (<[ "bob" := AMsg (mk_ai "reply 0" "") ]> ∅),
     [InvokeCall (resume_prompt "")]) ∧
  analyze_cover_letter_body Sample.world 0
    (<[ "cover_letter_path" := "cv/blank.pdf" ]> Sample.bob) ∅ []
  = (Ok (<[ "bob" := AStr "Cover letter file is empty" ]> ∅), []).
Proof. split_and!; vm_compute; reflexivity. Qed.

(** ** The supervisor *)

Lemma markers_supervisor_prompt state :
  markers (supervisor_prompt state) = markers (messages state).
Proof.
  unfold markers, supervisor_prompt. rewrite !omap_app. simpl.
  by rewrite app_nil_r.
Qed.

(** Every validated routing decision has an edge. *)
Lemma conditional_edges_total r :
  edge_lookup (route_name r) conditional_edges
  = Some match r with
         | FINISH => END
         | Go m => Node (member_name m)
         end.
Proof. by destruct r as [|[]]. Qed.

(** C1 as stated fails: the decision is not computed from the markers.
    A model that answers [FINISH] on the initial state ends the run before
    any step, where the rule asks for the resume step. *)
Lemma C1_decision_is_not_a_lookup :
  ¬ (∀ (E : Env) (state : CandidateState) (log : list llm_call),
       (supervisor_agent E state log).1
       = Ok (mk_update [] None None None None None
               (Some (route_name
                        (spec_next_step (markers (messages state))))))).
Proof.
  intros H. specialize (H Sample.hasty (initial_state "dev" []) []).
  vm_compute in H. discriminate H.
Qed.

(** C1, as the code has it: the supervisor's decision is the answer of
    one structured model call on the system prompt, the message history
    and the closing question; the code itself never inspects the
    markers, and the graph has an edge for every answer.  When the model
    answers by the workflow rules, the decision is the first step in the
    fixed order whose marker is absent: the resume step on the initial
    state, and [FINISH] whenever all five markers are present. *)
Theorem C1_supervisor_relays_model_decision (E : Env)
    (state : CandidateState) (log : list llm_call) :
  supervisor_agent E state log
  = (match llm_route E log (supervisor_prompt state) with
     | Ok r => Ok (mk_update [] None None None None None (Some (route_name r)))
     | Raise e => Raise e
     end, log ++ [RouteCall (supervisor_prompt state)]) ∧
  (llm_route E log (supervisor_prompt state)
   = Ok (spec_next_step (markers (messages state))) →
   (supervisor_agent E state log).1
   = Ok (mk_update [] None None None None None
           (Some (route_name (spec_next_step (markers (messages state))))))
   ∧ next_target "supervisor"
       (apply_update state
          (mk_update [] None None None None None
             (Some (route_name (spec_next_step (markers (messages state)))))))
     = Ok match spec_next_step (markers (messages state)) with
          | FINISH => END
          | Go m => Node (member_name m)
          end) ∧
  (∀ job_offer candidates,
     spec_next_step (markers (messages (initial_state job_offer candidates)))
     = Go ResumeAnalyzer) ∧
  (∀ marks : gset string,
     (∀ m, member_name m ∈ marks) → spec_next_step marks = FINISH) ∧
  (∀ state',
     markers (messages state') = markers (messages state) →
     spec_next_step (markers (messages state'))
     = spec_next_step (markers (messages state))).
Proof.
  split_and!.
  - unfold supervisor_agent, supervisor_chain. run_monad.
    by destruct (llm_route E log (supervisor_prompt state)).
  - intros Hobeys. split.
    + unfold supervisor_agent, supervisor_chain. run_monad.
      by rewrite Hobeys.
    + set (r := spec_next_step (markers (messages state))).
      unfold next_target. case_decide; [|done].
      change (next (apply_update state
                      (mk_update [] None None None None None
                         (Some (route_name r))))) with (route_name r).
      by rewrite conditional_edges_total.
  - intros job_offer candidates. reflexivity.
  - intros marks Hall. unfold spec_next_step.
    pose proof (Hall ResumeAnalyzer). pose proof (Hall LinkedInAnalyzer).
    pose proof (Hall CoverLetterAnalyzer). pose proof (Hall JobMatcher).
    pose proof (Hall FinalRanker). simpl in *.
    repeat case_decide; done.
  - by intros state' ->.
Qed.

(** The sample model follows the rules: on the initial state the
    supervisor routes to the resume step. *)
Lemma C1_rule_following_witness :
  (supervisor_agent Sample.world (initial_state "dev" [Sample.ada]) []).1
  = Ok (mk_update [] None None None None None (Some "ResumeAnalyzer"))
  ∧ next_target "supervisor"
      (apply_update (initial_state "dev" [Sample.ada])
         (mk_update [] None None None None None (Some "ResumeAnalyzer")))
    = Ok (Node "ResumeAnalyzer").
Proof.
  apply (proj1 (proj2 (C1_supervisor_relays_model_decision Sample.world
                         (initial_state "dev" [Sample.ada]) []))).
  vm_compute. reflexivity.
Defined.

(** ** Runs of the graph *)

Lemma markers_app l1 l2 : markers (l1 ++ l2) = markers l1 ∪ markers l2.
Proof. unfold markers. by rewrite omap_app, list_to_set_app_L. Qed.

Lemma step_name_inj s1 s2 : step_name s1 = step_name s2 → s1 = s2.
Proof. by destruct s1, s2. Qed.

Lemma step_name_not_final s : step_name s ≠ "FinalRanker".
Proof. by destruct s. Qed.

Lemma step_map_apply_update s state u :
  step_map s (apply_update state u)
  = default (step_map s state) (step_output s u).
Proof. by destruct s. Qed.

(** The functions behind the node names. *)
Lemma node_lookup_cases E node fn :
  node_lookup node (nodes E) = Some fn →
  (∃ s, fn = step_agent E s) ∨ fn = rank_candidates E
  ∨ fn = supervisor_agent E.
Proof.
  unfold nodes. simpl. repeat case_decide; intros [= <-].
  - left. by exists ResumeStep.
  - left. by exists LinkedInStep.
  - left. by exists CoverLetterStep.
  - left. by exists JobMatchStep.
  - by right; left.
  - by right; right.
Qed.

Lemma filled_step E cs s state log u log' :
  filled cs state → step_agent E s state log = (Ok u, log') →
  filled cs (apply_update state u).
Proof.
  intros [Hcs Hfill] Hrun.
  destruct (step_agent_returns E s state log)
    as (u0 & d & log0 & Hrun0 & _ & Hout & Hother & _ & _ & (text & Hmsg)
        & Hdom & _).
  rewrite Hrun in Hrun0. injection Hrun0 as <- <-.
  split; [done|]. intros s' Hran. rewrite step_map_apply_update.
  destruct (decide (s' = s)) as [->|Hne].
  - rewrite Hout. simpl. by rewrite Hdom, Hcs.
  - rewrite (Hother s' Hne). simpl. apply Hfill.
    unfold ran in *. simpl in Hran. rewrite Hmsg, markers_app in Hran.
    apply elem_of_union in Hran as [Hran|Hran]; [done|].
    unfold markers in Hran. simpl in Hran.
    assert (step_name s' = step_name s) as Heq by set_solver.
    by apply step_name_inj in Heq.
Qed.

Lemma filled_final E cs state log u log' :
  filled cs state → rank_candidates E state log = (Ok u, log') →
  filled cs (apply_update state u).
Proof.
  intros [Hcs Hfill] Hrun.
  destruct (rank_candidates_returns E state log)
    as (u0 & log0 & text & fr & Hrun0 & Hu & _).
  rewrite Hrun in Hrun0. injection Hrun0 as <- <-. subst u.
  split; [done|]. intros s Hran. rewrite step_map_apply_update.
  assert (step_output s
            (mk_update [HumanMessage text "FinalRanker"] None None None None
               (Some fr) None) = None) as -> by (by destruct s).
  simpl. apply Hfill.
  unfold ran in *. simpl in Hran. rewrite markers_app in Hran.
  apply elem_of_union in Hran as [Hran|Hran]; [done|].
  unfold markers in Hran. simpl in Hran.
  assert (step_name s = "FinalRanker") as Heq by set_solver.
  by apply step_name_not_final in Heq.
Qed.

Lemma filled_supervisor E cs state log u log' :
  filled cs state → supervisor_agent E state log = (Ok u, log') →
  filled cs (apply_update state u).
Proof.
  intros [Hcs Hfill]. unfold supervisor_agent, supervisor_chain. run_monad.
  destruct (llm_route E log _) as [r|e]; [|done]. intros [= <- <-].
  split; [done|]. intros s Hran. rewrite step_map_apply_update.
  assert (step_output s
            (mk_update [] None None None None None (Some (route_name r)))
          = None) as -> by (by destruct s).
  simpl. apply Hfill. unfold ran in *. simpl in Hran.
  by rewrite app_nil_r in Hran.
Qed.

(** No node execution breaks [filled], so no run does. *)
Lemma graph_run_filled E cs limit node state log final log' :
  filled cs state →
  graph_run E limit node state log = (Ok final, log') →
  filled cs final.
Proof.
  revert node state log.
  induction limit as [|limit IH]; intros node state log Hfill;
    cbn [graph_run].
  { by unfold lift. }
  destruct (node_lookup node (nodes E)) as [fn|] eqn:Hnode; [|by unfold lift].
  unfold mbind, M_bind at 1.
  destruct (fn state log) as [[u|e] log1] eqn:Hfn; [|done].
  assert (filled cs (apply_update state u)) as Hfill'.
  { destruct (node_lookup_cases E node fn Hnode) as [[s ->]|[->| ->]].
    - by eapply filled_step.
    - by eapply filled_final.
    - by eapply filled_supervisor. }
  unfold mbind, M_bind, lift.
  destruct (next_target node (apply_update state u)) as [[|n]|e]; simpl.
  - by intros [= <- <-].
  - by apply IH.
  - done.
Qed.

Lemma filled_initial job_offer cs : filled cs (initial_state job_offer cs).
Proof.
  split; [done|]. intros s Hran. unfold ran, markers in Hran. simpl in Hran.
  assert (step_name s = "user") as Heq by set_solver. by destruct s.
Qed.

(** ** Runs under a model that follows the rules *)

Lemma spec_next_step_prefix k marks :
  done_prefix k marks →
  spec_next_step marks = match member_at k with
                         | Some m => Go m
                         | None => FINISH
                         end.
Proof.
  intros H. unfold spec_next_step.
  pose proof (H ResumeAnalyzer) as H0. pose proof (H LinkedInAnalyzer) as H1.
  pose proof (H CoverLetterAnalyzer) as H2. pose proof (H JobMatcher) as H3.
  pose proof (H FinalRanker) as H4. simpl in *.
  destruct k as [|[|[|[|[|k]]]]]; simpl;
    repeat case_decide; try done; exfalso; naive_solver lia.
Qed.

Lemma node_lookup_member E m :
  node_lookup (member_name m) (nodes E) = Some (member_node E m).
Proof. by destruct m. Qed.

Lemma next_target_member m state :
  next_target (member_name m) state = Ok (Node "supervisor").
Proof. by destruct m. Qed.

(** A member node returns, adding one message under its name. *)
Lemma member_node_returns E m state log :
  ∃ u log' text,
    member_node E m state log = (Ok u, log') ∧
    u_messages u = [HumanMessage text (member_name m)].
Proof.
  assert (∀ s, ∃ u log' text,
            step_agent E s state log = (Ok u, log') ∧
            u_messages u = [HumanMessage text (step_name s)]) as Hstep.
  { intros s. destruct (step_agent_returns E s state log)
      as (u & d & log' & Hrun & _ & _ & _ & _ & _ & (text & Hmsg) & _).
    by exists u, log', text. }
  destruct m; simpl.
  - apply (Hstep ResumeStep).
  - apply (Hstep LinkedInStep).
  - apply (Hstep CoverLetterStep).
  - apply (Hstep JobMatchStep).
  - destruct (rank_candidates_returns E state log)
      as (u & log' & text & fr & Hrun & -> & _).
    by eexists _, log', text.
Qed.

Lemma member_at_rank k m : member_at k = Some m → member_rank m = k.
Proof.
  destruct k as [|[|[|[|[|k]]]]]; unfold member_at; simpl; intros [= <-];
    done.
Qed.

Lemma member_rank_inj m1 m2 : member_rank m1 = member_rank m2 → m1 = m2.
Proof. by destruct m1, m2. Qed.

Lemma member_name_inj m1 m2 : member_name m1 = member_name m2 → m1 = m2.
Proof. by destruct m1, m2. Qed.

Lemma done_prefix_next k m marks :
  done_prefix k marks → member_at k = Some m →
  done_prefix (S k) (marks ∪ {[member_name m]}).
Proof.
  intros H Hm m'. apply member_at_rank in Hm.
  rewrite elem_of_union, elem_of_singleton, (H m'). split.
  - intros [Hlt|Heq]; [lia|]. apply member_name_inj in Heq. subst. lia.
  - intros Hlt. destruct (decide (member_rank m' = k)) as [Heq|Hne].
    + right. f_equal. apply member_rank_inj. lia.
    + left. lia.
Qed.

Lemma supervisor_agent_obeys E state log :
  obeys_workflow_rules E →
  supervisor_agent E state log
  = (Ok (mk_update [] None None None None None
           (Some (route_name (spec_next_step (markers (messages state)))))),
     log ++ [RouteCall (supervisor_prompt state)]).
Proof.
  intros H. unfold supervisor_agent, supervisor_chain, mbind, M_bind, mret,
    M_ret. by rewrite H.
Qed.

(** From a state whose markers are the first [k] of the order, a model
    that follows the rules drives the graph through the remaining [n]
    members and to [FINISH], within [2 n + 1] node executions. *)
Lemma obedient_run_from E :
  obeys_workflow_rules E →
  ∀ n k state log limit,
    k + n = 5 → done_prefix k (markers (messages state)) →
    2 * n + 1 ≤ limit →
    ∃ final log',
      graph_run E limit "supervisor" state log = (Ok final, log') ∧
      done_prefix 5 (markers (messages final)).
Proof.
  intros Hobeys. induction n as [|n IH];
    intros k state log limit Hk Hdone Hlimit.
  - assert (k = 5) as -> by lia.
    destruct limit as [|limit]; [lia|]. cbn [graph_run].
    change (node_lookup "supervisor" (nodes E))
      with (Some (supervisor_agent E)).
    unfold mbind at 1, M_bind at 1.
    rewrite supervisor_agent_obeys, (spec_next_step_prefix 5) by done.
    eexists _, _. split; [reflexivity|]. simpl. by rewrite app_nil_r.
  - destruct limit as [|[|limit]]; [lia..|]. cbn [graph_run].
    change (node_lookup "supervisor" (nodes E))
      with (Some (supervisor_agent E)).
    unfold mbind at 1, M_bind at 1.
    rewrite supervisor_agent_obeys, (spec_next_step_prefix k) by done.
    destruct (member_at k) as [m|] eqn:Hm.
    2:{ apply lookup_ge_None in Hm. simpl in Hm. lia. }
    set (state1 := apply_update state _).
    assert (next_target "supervisor" state1 = Ok (Node (member_name m)))
      as Hnext by (by destruct m).
    unfold mbind at 1, M_bind at 1, lift at 1. rewrite Hnext.
    rewrite node_lookup_member.
    destruct (member_node_returns E m state1
                (log ++ [RouteCall (supervisor_prompt state)]))
      as (u & log1 & text & Hrun & Hmsg).
    unfold mbind at 1, M_bind at 1. rewrite Hrun.
    unfold mbind at 1, M_bind at 1, lift at 1. rewrite next_target_member.
    apply (IH (S k)); [lia| |lia].
    simpl. rewrite Hmsg, app_nil_r, markers_app.
    replace (markers [HumanMessage text (member_name m)])
      with ({[member_name m]} : gset string)
      by (unfold markers; simpl; set_solver).
    by apply done_prefix_next.
Qed.

Lemma done_prefix_initial job_offer cs :
  done_prefix 0 (markers (messages (initial_state job_offer cs))).
Proof.
  intros m. unfold markers. simpl. split; [|lia].
  intros Hin. assert (member_name m = "user") by set_solver. by destruct m.
Qed.

(** Under a model that follows the rules, [graph.invoke] returns from the
    initial state with every step run. *)
Lemma obedient_run_completes E job_offer cs log :
  obeys_workflow_rules E →
  ∃ final log',
    graph_invoke E (initial_state job_offer cs) log = (Ok final, log') ∧
    (∀ s, ran s final) ∧
    "FinalRanker" ∈ markers (messages final).
Proof.
  intros Hobeys.
  destruct (obedient_run_from E Hobeys 5 0 (initial_state job_offer cs) log
              recursion_limit eq_refl (done_prefix_initial job_offer cs))
    as (final & log' & Hrun & Hdone).
  { unfold recursion_limit. lia. }
  exists final, log'. split_and!; [done| |].
  - intros s. unfold ran. destruct s; simpl.
    + apply (Hdone ResumeAnalyzer). simpl. lia.
    + apply (Hdone LinkedInAnalyzer). simpl. lia.
    + apply (Hdone CoverLetterAnalyzer). simpl. lia.
    + apply (Hdone JobMatcher). simpl. lia.
  - apply (Hdone FinalRanker). simpl. lia.
Qed.

Lemma sample_world_obeys : obeys_workflow_rules Sample.world.
Proof.
  intros log state. simpl. unfold Sample.rule_router.
  by rewrite markers_supervisor_prompt.
Qed.

(** ** Every candidate in every dict *)

(** C4: on [N] candidates with pairwise distinct keys, whenever a run of
    the graph returns with the four per-candidate steps run, each of the
    four dicts of the final state has exactly [N] entries, one under the
    key of each candidate; and under a model that follows the workflow
    rules the run does return so, within the recursion limit. *)
Theorem C4_full_run_fills_every_map (E : Env) (job_offer : string)
    (cs : list candidate) (log : list llm_call) :
  NoDup (ids cs) →
  (∀ final log',
     graph_invoke E (initial_state job_offer cs) log = (Ok final, log') →
     (∀ s, ran s final) →
     ∀ s,
       size (step_map s final) = length cs ∧
       ∀ i c, cs !! i = Some c →
              is_Some (step_map s final !! candidate_id i c)) ∧
  (obeys_workflow_rules E →
   ∃ final log',
     graph_invoke E (initial_state job_offer cs) log = (Ok final, log') ∧
     (∀ s, ran s final) ∧
     ∀ s, size (step_map s final) = length cs).
Proof.
  intros Hnd.
  assert (∀ final log',
            graph_invoke E (initial_state job_offer cs) log
            = (Ok final, log') →
            (∀ s, ran s final) →
            ∀ s,
              size (step_map s final) = length cs ∧
              ∀ i c, cs !! i = Some c →
                     is_Some (step_map s final !! candidate_id i c)) as Hfull.
  { intros final log' Hrun Hran s.
    destruct (graph_run_filled E cs _ _ _ _ _ _
                (filled_initial job_offer cs) Hrun) as [_ Hfill].
    specialize (Hfill s (Hran s)). split.
    - rewrite <- size_dom, Hfill, size_list_to_set by done.
      apply ids_from_length.
    - intros i c Hc. apply elem_of_dom. rewrite Hfill.
      apply elem_of_list_to_set. by apply candidate_id_in_ids. }
  split; [done|]. intros Hobeys.
  destruct (obedient_run_completes E job_offer cs log Hobeys)
    as (final & log' & Hrun & Hran & _).
  exists final, log'. split_and!; [done..|].
  intros s. by apply (Hfull final log' Hrun Hran s).
Qed.

(** A full run of the sample world on two candidates: two resume
    analyses and two job matches. *)
Lemma C4_full_run_witness :
  size (resume_analyses
          (returned (initial_state "dev" [])
             (graph_invoke Sample.world
                (initial_state "dev" [Sample.ada; Sample.bob]) []))) = 2 ∧
  size (job_matches
          (returned (initial_state "dev" [])
             (graph_invoke Sample.world
                (initial_state "dev" [Sample.ada; Sample.bob]) []))) = 2.
Proof.
  assert (NoDup (ids [Sample.ada; Sample.bob])) as Hnd.
  { apply (bool_decide_unpack (NoDup (ids [Sample.ada; Sample.bob]))).
    vm_compute. exact I. }
  assert (graph_invoke Sample.world
            (initial_state "dev" [Sample.ada; Sample.bob]) []
          = (Ok (returned (initial_state "dev" [])
                   (graph_invoke Sample.world
                      (initial_state "dev" [Sample.ada; Sample.bob]) [])),
             (graph_invoke Sample.world
                (initial_state "dev" [Sample.ada; Sample.bob]) []).2))
    as Hrun.
  { vm_compute. reflexivity. }
  assert (∀ s, ran s
                 (returned (initial_state "dev" [])
                    (graph_invoke Sample.world
                       (initial_state "dev" [Sample.ada; Sample.bob]) [])))
    as Hran.
  { intros s. unfold ran. apply (bool_decide_unpack (_ ∈ _)).
    destruct s; vm_compute; exact I. }
  pose proof (proj1 (C4_full_run_fills_every_map Sample.world "dev"
                       [Sample.ada; Sample.bob] [] Hnd) _ _ Hrun Hran)
    as Hsize.
  split.
  - exact (proj1 (Hsize ResumeStep)).
  - exact (proj1 (Hsize JobMatchStep)).
Defined.

(** * Further properties of the code *)

(** ** parse_pdf: what callers can rely on *)

Lemma all_space_falsy s : falsy s = true → all_space s = true.
Proof. by destruct s. Qed.

(** The text [parse_pdf] returns is empty or not blank. *)
Lemma parse_pdf_text E file_path text :
  parse_pdf E file_path = Ok text →
  (text = "" ∨ all_space text = false) ∧ falsy (strip text) = falsy text.
Proof.
  rewrite parse_pdf_spec.
  destruct (pdf_file E file_path) as [|e|pages]; [done|by destruct (exn_class e)|].
  intros [= <-]. rewrite strip_falsy.
  destruct (kept_pages pages) as [|t ts] eqn:Hk; [by split; [left|]|].
  assert (all_space (join (nl +:+ nl) (t :: ts)) = false) as Hns.
  { apply all_space_join, (kept_pages_not_blank pages). rewrite Hk. left. }
  split; [by right|]. rewrite Hns.
  destruct (falsy (join (nl +:+ nl) (t :: ts))) eqn:Hf; [|done].
  apply all_space_falsy in Hf. congruence.
Qed.

(** X1: the text [parse_pdf] returns is either empty or holds a character
    that is no whitespace, so for the callers [text.strip()] is empty
    exactly when [text] is. *)
Theorem X1_parse_pdf_text_empty_or_not_blank (E : Env)
    (file_path text : string) :
  parse_pdf E file_path = Ok text →
  (text = "" ∨ all_space text = false) ∧ falsy (strip text) = falsy text.
Proof. apply parse_pdf_text. Qed.

Lemma X1_sample_resume_witness :
  ("Ada: Python, Rocq" = "" ∨ all_space "Ada: Python, Rocq" = false) ∧
  falsy (strip "Ada: Python, Rocq") = falsy "Ada: Python, Rocq".
Proof.
  apply (X1_parse_pdf_text_empty_or_not_blank Sample.world "cv/ada.pdf").
  reflexivity.
Defined.

(** X2: [parse_pdf] raises exceptions of two kinds only: a
    [FileNotFoundError], or a plain [Exception] whose text starts with
    "Error parsing PDF: "; and a path that holds no file always raises the
    former, naming the path. *)
Theorem X2_parse_pdf_raises_two_kinds (E : Env) (file_path : string) (e : exn) :
  parse_pdf E file_path = Raise e →
  (exn_class e = FileNotFoundError ∨
   exn_class e = Exception ∧
   ∃ cause, exn_str e = "Error parsing PDF: " +:+ cause) ∧
  (pdf_file E file_path = Missing →
   e = mk_exn FileNotFoundError ("PDF file not found: " +:+ file_path)).
Proof.
  rewrite parse_pdf_spec.
  destruct (pdf_file E file_path) as [|e0|pages]; [| |done].
  - intros [= <-]. split; [by left|done].
  - destruct (exn_class e0) eqn:Hc; intros [= <-]; (split; [|done]);
      first [by left | right; split; [done|by eexists]].
Qed.

Lemma X2_corrupt_file_witness :
  exn_class (mk_exn Exception "Error parsing PDF: EOF marker not found")
  = FileNotFoundError ∨
  exn_class (mk_exn Exception "Error parsing PDF: EOF marker not found")
  = Exception ∧
  ∃ cause,
    exn_str (mk_exn Exception "Error parsing PDF: EOF marker not found")
    = "Error parsing PDF: " +:+ cause.
Proof.
  exact (proj1 (X2_parse_pdf_raises_two_kinds Sample.world "cv/corrupt.pdf"
                  (mk_exn Exception "Error parsing PDF: EOF marker not found")
                  eq_refl)).
Defined.

Lemma kept_pages_app ps1 ps2 :
  kept_pages (ps1 ++ ps2) = kept_pages ps1 ++ kept_pages ps2.
Proof. apply omap_app. Qed.

(** X3: a page that cannot be extracted, or whose text is blank, leaves
    no trace: a file with such a page anywhere gives the result of the
    file without it. *)
Theorem X3_parse_pdf_ignores_bad_pages (E : Env) (path1 path2 : string)
    (ps1 ps2 : list (Result string)) (page : Result string) :
  pdf_file E path1 = Pages (ps1 ++ page :: ps2) →
  pdf_file E path2 = Pages (ps1 ++ ps2) →
  match page with
  | Ok text => all_space text = true
  | Raise _ => True
  end →
  parse_pdf E path1 = parse_pdf E path2.
Proof.
  intros H1 H2 Hbad. rewrite !parse_pdf_spec, H1, H2.
  do 2 f_equal. rewrite !kept_pages_app. f_equal.
  change (page :: ps2) with ([page] ++ ps2). rewrite kept_pages_app.
  destruct page as [text|e]; simpl; [by rewrite Hbad|done].
Qed.

Lemma X3_torn_file_witness :
  parse_pdf Sample.world "cv/torn.pdf" = parse_pdf Sample.world "cv/two.pdf".
Proof.
  apply (X3_parse_pdf_ignores_bad_pages Sample.world "cv/torn.pdf"
           "cv/two.pdf" [] [Ok "page two"]
           (Raise (mk_exn Exception "bad page"))).
  - reflexivity.
  - reflexivity.
  - exact I.
Defined.

(** ** The LinkedIn step and its scraper *)

(** X4: a LinkedIn reference that is no absolute URL is taken as the
    profile text itself.  If it starts with "Error" it is filed as it is
    and the model is not called; otherwise the model is called once, on
    the prompt holding the unchanged text, and the reply object (or the
    step's error text, if the call raises) is filed. *)
Theorem X4_linkedin_plain_text (E : Env) (idx : nat) (c : candidate)
    (d : gmap string analysis) (lg : list llm_call)
    (text scheme netloc : string) :
  dict_get c "linkedin_url" = Some text → falsy text = false →
  urlparse E text = Ok (scheme, netloc) →
  falsy scheme || falsy netloc = true →
  analyze_linkedin_body E idx c d lg =
  if startswith text "Error"
  then (Ok (<[candidate_id idx c := AStr text]> d), lg)
  else (Ok (<[candidate_id idx c :=
                match llm_reply E lg (linkedin_prompt text) with
                | Ok r => AMsg r
                | Raise e => AStr ("Error analyzing LinkedIn: " +:+ exn_str e)
                end]> d),
        lg ++ [InvokeCall (linkedin_prompt text)]).
Proof.
  intros Hurl Hf Hparse Hnot.
  unfold analyze_linkedin_body, analyze_linkedin_try, analyze_linkedin_except,
    scrape_linkedin, candidate_id.
  rewrite Hurl. simpl. rewrite Hf. run_monad. rewrite Hparse. simpl.
  rewrite <- negb_orb, Hnot. simpl. rewrite Hf. simpl.
  destruct (startswith text "Error"); [done|]. run_monad.
  by destruct (llm_reply E lg (linkedin_prompt text)).
Qed.

Lemma X4_error_text_witness :
  analyze_linkedin_body Sample.world 0
    {[ "id" := "kay"; "linkedin_url" := "Error handling specialist" ]} ∅ []
  = (Ok (<[ "kay" := AStr "Error handling specialist" ]> ∅), []).
Proof.
  exact (X4_linkedin_plain_text Sample.world 0
           {[ "id" := "kay"; "linkedin_url" := "Error handling specialist" ]}
           ∅ [] "Error handling specialist" "" ""
           eq_refl eq_refl eq_refl eq_refl).
Defined.

(** X5: for a LinkedIn reference that is an absolute URL, a failure of
    the page load is filed as the scraper's error string, and a load that
    yields no document as "No content available"; the model is called in
    neither case. *)
Theorem X5_linkedin_failed_load (E : Env) (idx : nat) (c : candidate)
    (d : gmap string analysis) (lg : list llm_call)
    (url scheme netloc : string) :
  dict_get c "linkedin_url" = Some url → falsy url = false →
  urlparse E url = Ok (scheme, netloc) →
  falsy scheme = false → falsy netloc = false →
  match web_load E url linkedin_classes with
  | Raise e =>
      analyze_linkedin_body E idx c d lg
      = (Ok (<[candidate_id idx c :=
                 AStr ("Error accessing LinkedIn profile: " +:+ exn_str e)]>
               d), lg)
  | Ok [] =>
      analyze_linkedin_body E idx c d lg
      = (Ok (<[candidate_id idx c := AStr "No content available"]> d), lg)
  | Ok (_ :: _) => True
  end.
Proof.
  intros Hurl Hf Hparse Hs Hn.
  unfold analyze_linkedin_body, analyze_linkedin_try, analyze_linkedin_except,
    scrape_linkedin, candidate_id.
  rewrite Hurl. simpl. rewrite Hf. run_monad. rewrite Hparse. simpl.
  rewrite Hs, Hn. simpl.
  by destruct (web_load E url linkedin_classes) as [[|doc docs]|e].
Qed.

Lemma X5_offline_witness :
  analyze_linkedin_body Worlds.offline 0 Sample.ada ∅ []
  = (Ok (<[ "ada" := AStr "Error accessing LinkedIn profile: timed out" ]> ∅),
     []).
Proof.
  exact (X5_linkedin_failed_load Worlds.offline 0 Sample.ada ∅ []
           "https://www.linkedin.com/in/ada" "https" "www.linkedin.com"
           eq_refl eq_refl eq_refl eq_refl eq_refl).
Defined.

(** ** Entries of the analysis dicts *)

Lemma last_with_key_split cs i c :
  last_with_key cs i c →
  cs = take i cs ++ c :: drop (S i) cs ∧ length (take i cs) = i ∧
  candidate_id i c ∉ ids_from (S i) (drop (S i) cs).
Proof.
  intros [Hc Hlast]. split_and!.
  - by rewrite take_drop_middle.
  - apply length_take_le. apply lookup_lt_Some in Hc. lia.
  - intros Hin. apply list_elem_of_lookup in Hin as [n Hn].
    rewrite ids_from_lookup, lookup_drop in Hn.
    destruct (cs !! (S i + n)) as [c'|] eqn:Hc'; [|done].
    simpl in Hn. injection Hn as Hn. eapply Hlast; [|done..]. lia.
Qed.

(** The entry of a candidate whose key no later candidate shares is what
    the loop body files for it, at the calls made when the loop reaches
    it. *)
Lemma step_entry E s state log i c :
  last_with_key (candidates state) i c →
  ∃ u d log' d1 lg1 v lg2,
    step_agent E s state log = (Ok u, log') ∧
    step_output s u = Some d ∧
    for_enumerate (step_body E state s) 0 (take i (candidates state)) ∅ log
      = (Ok d1, lg1) ∧
    stores (step_body E state s) i c lg1 v lg2 ∧
    d !! candidate_id i c = Some v.
Proof.
  intros Hlast.
  destruct (last_with_key_split _ _ _ Hlast) as (Hsplit & Hlen & Hnotin).
  destruct (step_agent_returns E s state log)
    as (u & d & log' & Hrun & Hloop & Hout & _).
  pose proof (step_body_per_candidate E state s) as Hpc.
  destruct (for_enumerate_per_candidate _ Hpc (take i (candidates state)) 0 ∅
              log) as (d1 & lg1 & Hpre & _).
  destruct (Hpc i c lg1) as (v & lg2 & Hst).
  destruct (for_enumerate_per_candidate _ Hpc (drop (S i) (candidates state))
              (S i) (<[candidate_id i c := v]> d1) lg2)
    as (d3 & lg4 & Hrest & _ & Hkeep & _).
  exists u, d, log', d1, lg1, v, lg2. split_and!; try done.
  rewrite Hsplit, for_enumerate_app, Hpre, Hlen in Hloop. simpl in Hloop.
  run_monad. rewrite (Hst d1), Hrest in Hloop.
  assert (d = d3) as -> by (apply Ok_inj; exact (f_equal fst (eq_sym Hloop))).
  rewrite Hkeep by done. apply lookup_insert_eq.
Qed.

Lemma step_guard_stores E state s idx c lg :
  step_guard s c = true →
  stores (step_body E state s) idx c lg (AStr (absent_text s)) lg.
Proof.
  intros Hg d. destruct s; simpl in *.
  - unfold analyze_resume_body. by rewrite Hg.
  - unfold analyze_linkedin_body. by rewrite Hg.
  - unfold analyze_cover_letter_body. by rewrite Hg.
  - done.
Qed.

(** X6: a candidate that lacks the input of an analyzer step (no path or
    reference, or an empty one) and whose key no later candidate shares
    has the step's "not provided" text in the dict the agent returns. *)
Theorem X6_absent_input_entry (E : Env) (s : step) (state : CandidateState)
    (log : list llm_call) (i : nat) (c : candidate) :
  last_with_key (candidates state) i c →
  step_guard s c = true →
  ∃ u d log',
    step_agent E s state log = (Ok u, log') ∧
    step_output s u = Some d ∧
    d !! candidate_id i c = Some (AStr (absent_text s)).
Proof.
  intros Hlast Hg.
  destruct (step_entry E s state log i c Hlast)
    as (u & d & log' & d1 & lg1 & v & lg2 & Hrun & Hout & _ & Hst & Hd).
  destruct (stores_functional _ _ _ _ _ _ _ _ Hst
              (step_guard_stores E state s i c lg1 Hg)) as [-> _].
  by exists u, d, log'.
Qed.

Lemma X6_no_cover_letter_witness :
  ∃ u d log',
    step_agent Sample.world CoverLetterStep
      (initial_state "dev" [Sample.ada; Sample.bob]) [] = (Ok u, log') ∧
    step_output CoverLetterStep u = Some d ∧
    d !! candidate_id 1 Sample.bob
    = Some (AStr "No cover letter provided (optional)").
Proof.
  apply (X6_absent_input_entry Sample.world CoverLetterStep
           (initial_state "dev" [Sample.ada; Sample.bob]) [] 1 Sample.bob).
  - split; [reflexivity|].
    intros [|[|[|j]]] c' Hj Hc'; simpl in Hc'; try lia; discriminate Hc'.
  - reflexivity.
Defined.

(** ** Calls on the model *)

(** A loop whose body makes at most one [llm.invoke] call per candidate,
    and none for a candidate the guard skips, makes at most as many calls
    as there are candidates the guard lets through. *)
Lemma for_enumerate_calls_le
    (body : nat → candidate → gmap string analysis → M (gmap string analysis))
    (guard : candidate → bool) :
  (∀ idx c d lg, ∃ d' calls,
     body idx c d lg = (Ok d', lg ++ calls) ∧ Forall is_invoke calls ∧
     length calls ≤ (if guard c then 0 else 1)) →
  ∀ cs idx d lg, ∃ d' calls,
    for_enumerate body idx cs d lg = (Ok d', lg ++ calls) ∧
    Forall is_invoke calls ∧
    length calls ≤ length (filter (fun c => guard c = false) cs).
Proof.
  intros Hbody. induction cs as [|c cs IH]; intros idx d lg.
  - exists d, []. simpl. rewrite app_nil_r. split_and!; [done|done|lia].
  - destruct (Hbody idx c d lg) as (d1 & calls1 & Hrun1 & Hinv1 & Hlen1).
    destruct (IH (S idx) d1 (lg ++ calls1))
      as (d2 & calls2 & Hrun2 & Hinv2 & Hlen2).
    exists d2, (calls1 ++ calls2). cbn [for_enumerate].
    unfold mbind, M_bind. rewrite Hrun1, Hrun2.
    split_and!; [by rewrite (assoc_L (++))|by apply Forall_app|].
    rewrite length_app.
    destruct (guard c) eqn:Hg.
    + rewrite filter_cons_False by congruence. lia.
    + rewrite filter_cons_True by done. simpl. lia.
Qed.

(** A loop whose body makes exactly one call per candidate makes as many
    calls as there are candidates. *)
Lemma for_enumerate_calls_eq
    (body : nat → candidate → gmap string analysis → M (gmap string analysis)) :
  (∀ idx c d lg, ∃ d' prompt,
     body idx c d lg = (Ok d', lg ++ [InvokeCall prompt])) →
  ∀ cs idx d lg, ∃ d' calls,
    for_enumerate body idx cs d lg = (Ok d', lg ++ calls) ∧
    length calls = length cs.
Proof.
  intros Hbody. induction cs as [|c cs IH]; intros idx d lg.
  - exists d, []. simpl. by rewrite app_nil_r.
  - destruct (Hbody idx c d lg) as (d1 & prompt & Hrun1).
    destruct (IH (S idx) d1 (lg ++ [InvokeCall prompt]))
      as (d2 & calls2 & Hrun2 & Hlen2).
    exists d2, (InvokeCall prompt :: calls2). cbn [for_enumerate].
    unfold mbind, M_bind. rewrite Hrun1, Hrun2.
    split; [by rewrite <- (assoc_L (++))|]. simpl. lia.
Qed.

Lemma step_body_calls E state s idx c d lg :
  ∃ d' calls,
    step_body E state s idx c d lg = (Ok d', lg ++ calls) ∧
    Forall is_invoke calls ∧
    length calls ≤ (if step_guard s c then 0 else 1).
Proof.
  destruct (step_guard s c) eqn:Hg.
  - exists (<[candidate_id idx c := AStr (absent_text s)]> d), [].
    rewrite app_nil_r. split_and!; [|done|done].
    by apply step_guard_stores.
  - destruct (step_body_cases E state s idx c lg)
      as (v & lg' & Hst & [[_ [-> _]]|(prompt & -> & _)]).
    + exists (<[candidate_id idx c := v]> d), [].
      rewrite app_nil_r. split_and!; [apply Hst|done|simpl; lia].
    + exists (<[candidate_id idx c := v]> d), [InvokeCall prompt].
      split_and!; [apply Hst| |done].
      apply Forall_singleton. by eexists.
Qed.

Lemma match_candidates_body_one_call E state idx c d lg :
  ∃ d' prompt,
    match_candidates_body E state idx c d lg
    = (Ok d', lg ++ [InvokeCall prompt]).
Proof.
  destruct (step_body_cases E state JobMatchStep idx c lg)
    as (v & lg' & Hst & [[Hne _]|(prompt & -> & _)]); [done|].
  eexists _, prompt. apply (Hst d).
Qed.

(** X7: a per-candidate step only adds [llm.invoke] calls to those made
    before it, at most one for each candidate that supplies the step's
    input; the job matcher adds exactly one for every candidate. *)
Theorem X7_step_calls_bounded (E : Env) (s : step) (state : CandidateState)
    (log : list llm_call) :
  ∃ u calls,
    step_agent E s state log = (Ok u, log ++ calls) ∧
    Forall is_invoke calls ∧
    length calls
    ≤ length (filter (fun c => step_guard s c = false) (candidates state)) ∧
    (s = JobMatchStep → length calls = length (candidates state)).
Proof.
  destruct (step_agent_returns E s state log)
    as (u & d & log' & Hrun & Hloop & _).
  destruct (for_enumerate_calls_le (step_body E state s) (step_guard s)
              (step_body_calls E state s) (candidates state) 0 ∅ log)
    as (d' & calls & Hloop' & Hinv & Hlen).
  rewrite Hloop in Hloop'. injection Hloop' as _ ->.
  exists u, calls. split_and!; try done.
  intros ->.
  destruct (for_enumerate_calls_eq (match_candidates_body E state)
              (match_candidates_body_one_call E state) (candidates state) 0 ∅
              log) as (d2 & calls2 & Hloop2 & Hlen2).
  simpl in Hloop. rewrite Hloop in Hloop2. injection Hloop2 as _ Heq.
  apply app_inv_head in Heq. by subst.
Qed.

(** X8: when every [llm.invoke] call raises [e], no analysis dict holds a
    reply object: every entry an agent returns is a string, and every
    entry of the job matcher is its error text for [e]. *)
Theorem X8_model_down_entries (E : Env) (s : step) (state : CandidateState)
    (log : list llm_call) (e : exn) :
  (∀ lg prompt, llm_reply E lg prompt = Raise e) →
  ∃ u d log',
    step_agent E s state log = (Ok u, log') ∧
    step_output s u = Some d ∧
    (∀ k v, d !! k = Some v → ∃ text, v = AStr text) ∧
    (s = JobMatchStep →
     ∀ k v, d !! k = Some v →
            v = AStr ("Error in job matching: " +:+ exn_str e)).
Proof.
  intros Hdown.
  destruct (step_agent_returns E s state log)
    as (u & d & log' & Hrun & _ & Hout & _ & _ & _ & _ & _ & Horigin).
  assert (∀ k v, d !! k = Some v →
            (s ≠ JobMatchStep ∧ ∃ text, v = AStr text)
            ∨ v = AStr (error_text s e)) as Hcases.
  { intros k v Hk.
    destruct (Horigin k v Hk) as (i & c & lg & lg' & _ & _ & Hst).
    destruct (step_body_cases E state s i c lg)
      as (v' & lg'' & Hst' & Hcase).
    destruct (stores_functional _ _ _ _ _ _ _ _ Hst Hst') as [-> _].
    destruct Hcase as [[Hne [_ Htext]]|(prompt & _ & Hreply)].
    - left. by split.
    - rewrite Hdown in Hreply. by right. }
  exists u, d, log'. split_and!; try done.
  - intros k v Hk. destruct (Hcases k v Hk) as [[_ ?]| ->]; [done|by eexists].
  - intros -> k v Hk. by destruct (Hcases k v Hk) as [[? _]| ->].
Qed.

Lemma X8_model_down_witness :
  ∃ u d log',
    step_agent Sample.down JobMatchStep
      (initial_state "dev" [Sample.ada; Sample.bob]) [] = (Ok u, log') ∧
    step_output JobMatchStep u = Some d ∧
    (∀ k v, d !! k = Some v → ∃ text, v = AStr text) ∧
    (JobMatchStep = JobMatchStep →
     ∀ k v, d !! k = Some v →
            v = AStr ("Error in job matching: "
                      +:+ exn_str (mk_exn Exception "connection refused"))).
Proof.
  apply (X8_model_down_entries Sample.down JobMatchStep
           (initial_state "dev" [Sample.ada; Sample.bob]) []
           (mk_exn Exception "connection refused")).
  intros lg prompt. reflexivity.
Defined.

Lemma X7_job_matcher_witness :
  ∃ u calls,
    step_agent Sample.world JobMatchStep
      (initial_state "dev" [Sample.ada; Sample.bob]) []
    = (Ok u, [] ++ calls) ∧
    length calls = 2.
Proof.
  destruct (X7_step_calls_bounded Sample.world JobMatchStep
              (initial_state "dev" [Sample.ada; Sample.bob]) [])
    as (u & calls & Hrun & _ & _ & Hexact).
  exists u, calls. split; [exact Hrun|]. apply Hexact. reflexivity.
Defined.

(** ** The final ranker: calls and parsed output *)

(** The calls of the final ranker. *)
Lemma rank_candidates_calls E state log :
  ∃ p1,
    (rank_candidates E state log).2
    = log ++ InvokeCall p1 ::
        match llm_reply E log p1 with
        | Ok r1 => [InvokeCall (json_prompt (str_message E r1))]
        | Raise _ => []
        end.
Proof.
  destruct (rank_candidates_report_call E state log) as (p1 & Hrep).
  exists p1.
  unfold rank_candidates, try_exceptM, rank_candidates_try,
    rank_candidates_except.
  unfold mbind at 1, M_bind at 1. rewrite Hrep.
  destruct (llm_reply E log p1) as [r1|e]; run_monad; [|done].
  rewrite <- (assoc_L (++)). simpl.
  destruct (llm_reply E (log ++ [InvokeCall p1])
              (json_prompt (str_message E r1))) as [r2|e]; [|done].
  destruct (parse_structured_output E (candidates state) r2) as [so|e];
    simpl; [|done].
  by destruct (json_get so "top_recommendation" (JStr "N/A")) as [top|e].
Qed.

(** X9: the final ranker calls the model once for the report, whatever
    the number of candidates, and a second time, on the prompt holding
    the string rendering of the report, exactly when the first call
    returned; it makes no other call. *)
Theorem X9_final_ranker_calls (E : Env) (state : CandidateState)
    (log : list llm_call) :
  ∃ p1,
    (rank_candidates E state log).2
    = log ++ InvokeCall p1 ::
        match llm_reply E log p1 with
        | Ok r1 => [InvokeCall (json_prompt (str_message E r1))]
        | Raise _ => []
        end.
Proof. apply rank_candidates_calls. Qed.

(** X10: when the text extracted from the second reply parses as JSON
    that is no object (an array, a string, a number, null), the call
    [structured_output.get] raises, and the final ranker returns the
    error-shaped ranking: the report it had obtained is not part of the
    result. *)
Theorem X10_non_object_json_discards_report (E : Env)
    (state : CandidateState) (log lg1 : list llm_call) (r1 r2 : AIMessage)
    (text : string) (v : json) :
  rank_candidates_report E state log = (Ok r1, lg1) →
  llm_reply E lg1 (json_prompt (str_message E r1)) = Ok r2 →
  extract_json_str E r2 = Ok text →
  json_loads E text = Ok v →
  (∀ d, v ≠ JDict d) →
  ∃ log',
    rank_candidates E state log
    = (Ok (mk_update
             [HumanMessage
                ("Final Ranker: Error - '" +:+ type_name v
                 +:+ "' object has no attribute 'get'") "FinalRanker"]
             None None None None
             (Some [("detailed_report",
                     JStr ("Error generating ranking: '" +:+ type_name v
                           +:+ "' object has no attribute 'get'"));
                    ("structured_output",
                     JDict [("error",
                             JStr ("'" +:+ type_name v
                                   +:+ "' object has no attribute 'get'"))])])
             None), log').
Proof.
  intros Hrep Hr2 Htext Hloads Hv.
  unfold rank_candidates, try_exceptM, rank_candidates_try,
    rank_candidates_except.
  unfold mbind at 1, M_bind at 1. rewrite Hrep. run_monad. rewrite Hr2.
  unfold parse_structured_output. run_monad. rewrite Htext, Hloads. simpl.
  destruct v; try (by eexists). by destruct (Hv d).
Qed.

Lemma X10_array_witness :
  ∃ log',
    rank_candidates Worlds.arrays (initial_state "dev" [Sample.ada]) []
    = (Ok (mk_update
             [HumanMessage
                "Final Ranker: Error - 'list' object has no attribute 'get'"
                "FinalRanker"]
             None None None None
             (Some [("detailed_report",
                     JStr "Error generating ranking: 'list' object has no attribute 'get'");
                    ("structured_output",
                     JDict [("error",
                             JStr "'list' object has no attribute 'get'")])])
             None), log').
Proof.
  apply (X10_non_object_json_discards_report Worlds.arrays
           (initial_state "dev" [Sample.ada]) []
           (rank_candidates_report Worlds.arrays
              (initial_state "dev" [Sample.ada]) []).2
           (mk_ai "reply 0" "") (mk_ai "reply 1" "") "reply 1" (JList [])).
  - vm_compute. reflexivity.
  - reflexivity.
  - reflexivity.
  - reflexivity.
  - intros d. discriminate.
Defined.

(** X11: when the extracted text parses as a JSON object, the final
    ranker stores that object as it is, whatever keys it has, beside the
    string rendering of the report; its message names the object's
    [top_recommendation], or "N/A" when the key is missing. *)
Theorem X11_parsed_object_stored_verbatim (E : Env) (state : CandidateState)
    (log lg1 : list llm_call) (r1 r2 : AIMessage) (text : string)
    (d : list (string * json)) :
  rank_candidates_report E state log = (Ok r1, lg1) →
  llm_reply E lg1 (json_prompt (str_message E r1)) = Ok r2 →
  extract_json_str E r2 = Ok text →
  json_loads E text = Ok (JDict d) →
  rank_candidates E state log
  = (Ok (mk_update
           [HumanMessage
              ("Final Ranker: Completed ranking of "
               +:+ pretty (length (candidates state))
               +:+ " candidates. Top recommendation: "
               +:+ py_str E (default (JStr "N/A")
                               (assoc "top_recommendation" d)))
              "FinalRanker"]
           None None None None
           (Some [("detailed_report", JStr (str_message E r1));
                  ("structured_output", JDict d)])
           None),
     lg1 ++ [InvokeCall (json_prompt (str_message E r1))]).
Proof.
  intros Hrep Hr2 Htext Hloads.
  unfold rank_candidates, try_exceptM, rank_candidates_try.
  unfold mbind at 1, M_bind at 1. rewrite Hrep. run_monad. rewrite Hr2.
  unfold parse_structured_output. run_monad. by rewrite Htext, Hloads.
Qed.

Lemma X11_empty_object_witness :
  rank_candidates Worlds.terse (initial_state "dev" [Sample.ada]) []
  = (Ok (mk_update
           [HumanMessage
              "Final Ranker: Completed ranking of 1 candidates. Top recommendation: N/A"
              "FinalRanker"]
           None None None None
           (Some [("detailed_report", JStr "{}");
                  ("structured_output", JDict [])])
           None),
     (rank_candidates_report Worlds.terse
        (initial_state "dev" [Sample.ada]) []).2
     ++ [InvokeCall (json_prompt "{}")]).
Proof.
  apply (X11_parsed_object_stored_verbatim Worlds.terse
           (initial_state "dev" [Sample.ada]) []
           (rank_candidates_report Worlds.terse
              (initial_state "dev" [Sample.ada]) []).2
           (mk_ai "{}" "") (mk_ai "{}" "") "{}" []).
  - vm_compute. reflexivity.
  - reflexivity.
  - reflexivity.
  - reflexivity.
Defined.

(** X12: when the second model call raises, the final ranker returns the
    error-shaped ranking for that exception; the report of the first
    call is not part of the result. *)
Theorem X12_failed_json_call_discards_report (E : Env)
    (state : CandidateState) (log lg1 : list llm_call) (r1 : AIMessage)
    (e : exn) :
  rank_candidates_report E state log = (Ok r1, lg1) →
  llm_reply E lg1 (json_prompt (str_message E r1)) = Raise e →
  rank_candidates E state log
  = (Ok (mk_update
           [HumanMessage ("Final Ranker: Error - " +:+ exn_str e)
              "FinalRanker"]
           None None None None
           (Some [("detailed_report",
                   JStr ("Error generating ranking: " +:+ exn_str e));
                  ("structured_output", JDict [("error", JStr (exn_str e))])])
           None),
     lg1 ++ [InvokeCall (json_prompt (str_message E r1))]).
Proof.
  intros Hrep Hr2.
  unfold rank_candidates, try_exceptM, rank_candidates_try,
    rank_candidates_except.
  unfold mbind at 1, M_bind at 1. rewrite Hrep. run_monad. by rewrite Hr2.
Qed.

Lemma X12_flaky_witness :
  rank_candidates Worlds.flaky (initial_state "dev" [Sample.ada]) []
  = (Ok (mk_update
           [HumanMessage "Final Ranker: Error - rate limited" "FinalRanker"]
           None None None None
           (Some [("detailed_report",
                   JStr "Error generating ranking: rate limited");
                  ("structured_output",
                   JDict [("error", JStr "rate limited")])])
           None),
     (rank_candidates_report Worlds.flaky
        (initial_state "dev" [Sample.ada]) []).2
     ++ [InvokeCall (json_prompt "ada first")]).
Proof.
  apply (X12_failed_json_call_discards_report Worlds.flaky
           (initial_state "dev" [Sample.ada]) []
           (rank_candidates_report Worlds.flaky
              (initial_state "dev" [Sample.ada]) []).2
           (mk_ai "ada first" "") (mk_exn Exception "rate limited")).
  - vm_compute. reflexivity.
  - reflexivity.
Defined.

(** ** Code fences around the structured output *)

Lemma string_app_nil_r (s : string) : s +:+ "" = s.
Proof.
  induction s as [|c s IH]; [done|].
  change (String c (s +:+ "") = String c s). by f_equal.
Qed.

Lemma string_app_assoc (s t u : string) : (s +:+ t) +:+ u = s +:+ t +:+ u.
Proof.
  induction s as [|c s IH]; [done|].
  change (String c ((s +:+ t) +:+ u) = String c (s +:+ t +:+ u)). by f_equal.
Qed.

Lemma prefix_app sep b : String.prefix sep (sep +:+ b) = true.
Proof.
  induction sep as [|c sep IH].
  { change ("" +:+ b) with b. by destruct b. }
  change (String c sep +:+ b) with (String c (sep +:+ b)). simpl.
  by destruct (ascii_dec c c).
Qed.

Lemma prefix_true_app p s : String.prefix p s = true → ∃ t, s = p +:+ t.
Proof.
  revert s. induction p as [|c p IH]; intros s.
  - by exists s.
  - destruct s as [|c' s]; [done|]. simpl.
    destruct (ascii_dec c c') as [<-|]; [|done].
    intros Hp. destruct (IH s Hp) as (t & ->). by exists t.
Qed.

Lemma prefix_cons_same c p s :
  String.prefix (String c p) (String c s) = String.prefix p s.
Proof. simpl. by destruct (ascii_dec c c). Qed.

Lemma prefix_head_differs c0 sep' c s :
  c ≠ c0 → String.prefix (String c0 sep') (String c s) = false.
Proof. intros Hc. simpl. by destruct (ascii_dec c0 c). Qed.

Lemma lacks_cons c0 c s :
  lacks c0 (String c s) = true → c ≠ c0 ∧ lacks c0 s = true.
Proof.
  simpl. intros [Hc Hs]%andb_true_iff. split; [|done].
  apply negb_true_iff, bool_decide_eq_false in Hc. done.
Qed.

Lemma split_go_skip sep t cur b :
  split_go sep (String.length t) cur (t +:+ b) = split_go sep 0 cur b.
Proof.
  induction t as [|c t IH]; [reflexivity|].
  change (String c t +:+ b) with (String c (t +:+ b)). simpl. apply IH.
Qed.

(** A text without the separator's first character is one piece. *)
Lemma split_go_lacks c0 sep' cur a :
  lacks c0 a = true → split_go (String c0 sep') 0 cur a = [cur +:+ a].
Proof.
  revert cur. induction a as [|c a IH]; intros cur Ha.
  - cbn [split_go]. by rewrite string_app_nil_r.
  - apply lacks_cons in Ha as [Hc Ha]. cbn [split_go].
    rewrite prefix_head_differs by done.
    rewrite IH by done. by rewrite string_app_assoc.
Qed.

(** Up to the first separator, when the text before it lacks the
    separator's first character. *)
Lemma split_go_first c0 sep' cur a b :
  lacks c0 a = true →
  split_go (String c0 sep') 0 cur (a +:+ String c0 sep' +:+ b)
  = (cur +:+ a) :: split_go (String c0 sep') 0 "" b.
Proof.
  revert cur. induction a as [|c a IH]; intros cur Ha.
  - rewrite string_app_nil_r.
    change ("" +:+ String c0 sep' +:+ b) with (String c0 (sep' +:+ b)).
    cbn [split_go].
    change (String c0 (sep' +:+ b)) with (String c0 sep' +:+ b).
    rewrite prefix_app. f_equal.
    change (String.length (String c0 sep') - 1) with (String.length sep' - 0).
    rewrite Nat.sub_0_r. apply split_go_skip.
  - apply lacks_cons in Ha as [Hc Ha].
    change (String c a +:+ String c0 sep' +:+ b)
      with (String c (a +:+ String c0 sep' +:+ b)).
    cbn [split_go]. rewrite prefix_head_differs by done.
    rewrite IH by done. by rewrite string_app_assoc.
Qed.

Lemma contains_app sep a b : contains sep (a +:+ sep +:+ b) = true.
Proof.
  induction a as [|c a IH].
  - change ("" +:+ sep +:+ b) with (sep +:+ b).
    destruct sep as [|c0 sep']; [by destruct b|].
    change (String c0 sep' +:+ b) with (String c0 (sep' +:+ b)).
    cbn [contains].
    change (String c0 (sep' +:+ b)) with (String c0 sep' +:+ b).
    by rewrite prefix_app.
  - change (String c a +:+ sep +:+ b) with (String c (a +:+ sep +:+ b)).
    cbn [contains]. rewrite IH. apply orb_true_r.
Qed.

Lemma contains_lacks c0 sep' s :
  lacks c0 s = true → contains (String c0 sep') s = false.
Proof.
  induction s as [|c s IH]; intros Hs; [done|].
  apply lacks_cons in Hs as [Hc Hs]. cbn [contains].
  rewrite prefix_head_differs by done. by rewrite IH.
Qed.

(** A piece that holds no [```json] although a fence closes it: the text
    after the fence does not start with "json". *)
Lemma split_go_json_absent cur payload post :
  lacks backtick payload = true → lacks backtick post = true →
  String.prefix "json" post = false →
  split_go "```json" 0 cur (payload +:+ "```" +:+ post)
  = [cur +:+ payload +:+ "```" +:+ post].
Proof.
  intros Hpay Hpost Hjson. revert cur.
  induction payload as [|c payload IH]; intros cur.
  - change ("" +:+ "```" +:+ post) with ("```" +:+ post).
    assert (String.prefix "```json" ("```" +:+ post) = false) as H1.
    { simpl. exact Hjson. }
    assert (String.prefix "```json" ("``" +:+ post) = false) as H2.
    { destruct post as [|c post]; [done|].
      apply lacks_cons in Hpost as [Hc _].
      change (String.prefix
                (String backtick (String backtick (String backtick "json")))
                (String backtick (String backtick (String c post))) = false).
      rewrite !prefix_cons_same. by apply prefix_head_differs. }
    assert (String.prefix "```json" ("`" +:+ post) = false) as H3.
    { destruct post as [|c post]; [done|].
      apply lacks_cons in Hpost as [Hc _].
      change (String.prefix
                (String backtick (String backtick (String backtick "json")))
                (String backtick (String c post)) = false).
      rewrite !prefix_cons_same. by apply prefix_head_differs. }
    change ("```" +:+ post) with (String backtick ("``" +:+ post)) at 1.
    cbn [split_go].
    change (String backtick ("``" +:+ post)) with ("```" +:+ post).
    rewrite H1.
    change ("``" +:+ post) with (String backtick ("`" +:+ post)) at 1.
    cbn [split_go].
    change (String backtick ("`" +:+ post)) with ("``" +:+ post).
    rewrite H2.
    change ("`" +:+ post) with (String backtick post) at 1.
    cbn [split_go].
    change (String backtick post) with ("`" +:+ post).
    rewrite H3.
    rewrite (split_go_lacks backtick "``json") by done.
    by rewrite !string_app_assoc.
  - apply lacks_cons in Hpay as [Hc Hpay].
    change (String c payload +:+ "```" +:+ post)
      with (String c (payload +:+ "```" +:+ post)).
    cbn [split_go].
    rewrite (prefix_head_differs backtick "``json") by done.
    rewrite IH by done. by rewrite string_app_assoc.
Qed.

Lemma index_second {A} (a b : A) l : index (a :: b :: l) 1 = Ok b.
Proof. reflexivity. Qed.

Lemma index_first {A} (a : A) l : index (a :: l) 0 = Ok a.
Proof. reflexivity. Qed.

(** X13: a reply that wraps its payload in a [```json] fence, with no
    other backtick before, inside or after, reaches [json.loads] as the
    payload without the surrounding whitespace. *)
Theorem X13_json_fence_is_stripped (E : Env) (json_response : AIMessage)
    (pre payload post : string) :
  str_message E json_response
  = pre +:+ "```json" +:+ payload +:+ "```" +:+ post →
  lacks backtick pre = true → lacks backtick payload = true →
  lacks backtick post = true →
  extract_json_str E json_response = Ok (strip payload).
Proof.
  intros Hstr Hpre Hpay Hpost. unfold extract_json_str. rewrite Hstr.
  rewrite contains_app. unfold split.
  rewrite (split_go_first backtick "``json") by done.
  assert (∃ after rest more,
            split_go (String backtick "``json") 0 ""
              (payload +:+ "```" +:+ post) = after :: rest ∧
            split_go "```" 0 "" after = payload :: more)
    as (after & rest & more & -> & Hin).
  { destruct (String.prefix "json" post) eqn:Hjson.
    - apply prefix_true_app in Hjson as (post' & ->).
      change (payload +:+ "```" +:+ "json" +:+ post')
        with (payload +:+ String backtick "``json" +:+ post').
      rewrite (split_go_first backtick "``json") by done.
      eexists _, _, []. split; [reflexivity|].
      change ("" +:+ payload) with payload.
      by rewrite (split_go_lacks backtick "``") by done.
    - change (String backtick "``json") with "```json".
      rewrite split_go_json_absent by done.
      eexists _, _, _. split; [reflexivity|].
      change ("" +:+ payload +:+ "```" +:+ post)
        with (payload +:+ String backtick "``" +:+ post).
      by rewrite (split_go_first backtick "``"). }
  rewrite index_second. simpl. rewrite Hin, index_first. done.
Qed.

Lemma X13_fenced_reply_witness :
  extract_json_str Sample.world
    (mk_ai ("Here you go:" +:+ nl +:+ "```json" +:+ nl +:+ "{}" +:+ nl
            +:+ "```" +:+ nl) "")
  = Ok (strip (nl +:+ "{}" +:+ nl)).
Proof.
  apply (X13_json_fence_is_stripped Sample.world _ ("Here you go:" +:+ nl)
           (nl +:+ "{}" +:+ nl) nl).
  - reflexivity.
  - reflexivity.
  - reflexivity.
  - reflexivity.
Defined.

(** X14: a reply without any backtick is handed to [json.loads]
    unchanged, neither split nor stripped. *)
Theorem X14_unfenced_reply_unchanged (E : Env) (json_response : AIMessage) :
  lacks backtick (str_message E json_response) = true →
  extract_json_str E json_response = Ok (str_message E json_response).
Proof.
  intros Hlacks. unfold extract_json_str.
  rewrite (contains_lacks backtick "``json") by done.
  by rewrite (contains_lacks backtick "``") by done.
Qed.

Lemma X14_plain_reply_witness :
  extract_json_str Sample.world (mk_ai " {} " "") = Ok " {} ".
Proof.
  apply (X14_unfenced_reply_unchanged Sample.world (mk_ai " {} " "")).
  reflexivity.
Defined.

(** ** The entry point and the graph *)

(** [evaluate_candidates] returns the evaluation of the final state of
    [graph.invoke], and raises what [graph.invoke] raises. *)
Lemma evaluate_candidates_unfold E job_offer cs log :
  evaluate_candidates E job_offer cs log =
  match graph_invoke E (initial_state job_offer cs) log with
  | (Ok final, log') => (Ok (evaluation_of final), log')
  | (Raise e, log') => (Raise e, log')
  end.
Proof.
  unfold evaluate_candidates, try_exceptM, mbind, M_bind, mret, M_ret, lift.
  by destruct (graph_invoke E (initial_state job_offer cs) log)
    as [[final|e] log'].
Qed.

Lemma graph_run_supervisor E limit state log :
  graph_run E (S limit) "supervisor" state log =
  match llm_route E log (supervisor_prompt state) with
  | Raise e => (Raise e, log ++ [RouteCall (supervisor_prompt state)])
  | Ok FINISH =>
      (Ok (apply_update state
             (mk_update [] None None None None None (Some "FINISH"))),
       log ++ [RouteCall (supervisor_prompt state)])
  | Ok (Go m) =>
      graph_run E limit (member_name m)
        (apply_update state
           (mk_update [] None None None None None (Some (member_name m))))
        (log ++ [RouteCall (supervisor_prompt state)])
  end.
Proof.
  cbn [graph_run].
  change (node_lookup "supervisor" (nodes E)) with (Some (supervisor_agent E)).
  unfold supervisor_agent, supervisor_chain, mbind, M_bind, mret, M_ret, lift.
  destruct (llm_route E log (supervisor_prompt state)) as [[|m]|e];
    [done| |done].
  by destruct m.
Qed.

(** X15: when the routing call on the initial state raises, nothing
    catches it: [evaluate_candidates] raises that exception, no agent
    having run. *)
Theorem X15_routing_failure_escapes (E : Env) (job_offer : string)
    (cs : list candidate) (log : list llm_call) (e : exn) :
  llm_route E log (supervisor_prompt (initial_state job_offer cs)) = Raise e →
  evaluate_candidates E job_offer cs log
  = (Raise e,
     log ++ [RouteCall (supervisor_prompt (initial_state job_offer cs))]).
Proof.
  intros Hroute. rewrite evaluate_candidates_unfold.
  unfold graph_invoke, recursion_limit.
  by rewrite graph_run_supervisor, Hroute.
Qed.

Lemma X15_unrouted_witness :
  evaluate_candidates Worlds.unrouted "dev" [Sample.ada] []
  = (Raise (mk_exn Exception "connection refused"),
     [] ++ [RouteCall (supervisor_prompt (initial_state "dev" [Sample.ada]))]).
Proof.
  apply (X15_routing_failure_escapes Worlds.unrouted "dev" [Sample.ada] []).
  reflexivity.
Defined.

(** X16: when the model routes to [FINISH] at the first call, no agent
    runs and [evaluate_candidates] returns the defaults: the report "No
    report generated", an empty structured output and four empty
    dicts, however many candidates were given. *)
Theorem X16_immediate_finish_returns_defaults (E : Env) (job_offer : string)
    (cs : list candidate) (log : list llm_call) :
  llm_route E log (supervisor_prompt (initial_state job_offer cs)) = Ok FINISH →
  evaluate_candidates E job_offer cs log
  = (Ok (mk_evaluation (JStr "No report generated") (JDict []) ∅ ∅ ∅ ∅),
     log ++ [RouteCall (supervisor_prompt (initial_state job_offer cs))]).
Proof.
  intros Hroute. rewrite evaluate_candidates_unfold.
  unfold graph_invoke, recursion_limit.
  by rewrite graph_run_supervisor, Hroute.
Qed.

Lemma X16_hasty_witness :
  evaluate_candidates Sample.hasty "dev" [Sample.ada; Sample.bob] []
  = (Ok (mk_evaluation (JStr "No report generated") (JDict []) ∅ ∅ ∅ ∅),
     [] ++ [RouteCall (supervisor_prompt
                         (initial_state "dev" [Sample.ada; Sample.bob]))]).
Proof.
  apply (X16_immediate_finish_returns_defaults Sample.hasty "dev"
           [Sample.ada; Sample.bob] []).
  reflexivity.
Defined.




(** Every node that returns has only added calls. *)
Lemma node_appends_calls E node fn state log u log1 :
  node_lookup node (nodes E) = Some fn →
  fn state log = (Ok u, log1) → ∃ calls, log1 = log ++ calls.
Proof.
  intros Hnode Hrun.
  destruct (node_lookup_cases E node fn Hnode) as [[s ->]|[->| ->]].
  - destruct (step_agent_returns E s state log)
      as (u0 & d & log0 & Hrun0 & Hloop & _).
    destruct (for_enumerate_calls_le (step_body E state s) (step_guard s)
                (step_body_calls E state s) (candidates state) 0 ∅ log)
      as (d' & calls & Hloop' & _).
    rewrite Hloop in Hloop'. rewrite Hrun0 in Hrun.
    exists calls. congruence.
  - destruct (rank_candidates_calls E state log) as (p1 & Hcalls).
    rewrite Hrun in Hcalls. simpl in Hcalls. by eexists.
  - revert Hrun. unfold supervisor_agent, supervisor_chain. run_monad.
    destruct (llm_route E log _); [|done]. intros [= _ <-]. by eexists.
Qed.

Lemma graph_run_keeps E limit node state log final log' :
  graph_run E limit node state log = (Ok final, log') →
  job_offer final = job_offer state ∧ candidates final = candidates state ∧
  (∃ more, messages final = messages state ++ more) ∧
  (∃ calls, log' = log ++ calls).
Proof.
  revert node state log.
  induction limit as [|limit IH]; intros node state log; cbn [graph_run].
  { by unfold lift. }
  destruct (node_lookup node (nodes E)) as [fn|] eqn:Hnode; [|by unfold lift].
  unfold mbind at 1, M_bind at 1.
  destruct (fn state log) as [[u|e] log1] eqn:Hfn; [|done].
  destruct (node_appends_calls E node fn state log u log1 Hnode Hfn)
    as (calls1 & ->).
  unfold mbind, M_bind, lift.
  destruct (next_target node (apply_update state u)) as [[|n]|e]; simpl.
  - intros [= <- <-]. split_and!; [done|done|by eexists|by eexists].
  - intros Hrest.
    destruct (IH _ _ _ Hrest) as (Hjob & Hcs & (more & Hmore) & (calls & Hc)).
    split_and!; [done|done| |].
    + exists (u_messages u ++ more). rewrite Hmore. simpl.
      by rewrite (assoc_L (++)).
    + exists (calls1 ++ calls). rewrite Hc. by rewrite (assoc_L (++)).
  - done.
Qed.

(** X18: a run of the graph that returns has kept the job offer and the
    candidate list as they were given, has only added messages after the
    initial one, and has only added calls to those made before. *)
Theorem X18_run_keeps_inputs (E : Env) (offer : string)
    (cs : list candidate) (log log' : list llm_call)
    (final : CandidateState) :
  graph_invoke E (initial_state offer cs) log = (Ok final, log') →
  job_offer final = offer ∧ candidates final = cs ∧
  (∃ more, messages final = messages (initial_state offer cs) ++ more) ∧
  (∃ calls, log' = log ++ calls).
Proof. intros Hrun. by apply graph_run_keeps in Hrun. Qed.

Lemma X18_sample_run_witness :
  candidates
    (returned (initial_state "dev" [])
       (graph_invoke Sample.world
          (initial_state "dev" [Sample.ada; Sample.bob]) []))
  = [Sample.ada; Sample.bob].
Proof.
  refine (proj1 (proj2 (X18_run_keeps_inputs Sample.world "dev"
                          [Sample.ada; Sample.bob] []
                          (graph_invoke Sample.world
                             (initial_state "dev" [Sample.ada; Sample.bob])
                             []).2 _ _))).
  vm_compute. reflexivity.
Defined.

(** ** The order of the steps under a model that follows the rules *)

Lemma member_at_members k m :
  member_at k = Some m → members !! k = Some (member_name m).
Proof.
  destruct k as [|[|[|[|[|k]]]]]; unfold member_at; simpl; intros [= <-];
    done.
Qed.

Lemma names_done_prefix k msgs :
  names msgs = "user" :: take k members → done_prefix k (markers msgs).
Proof.
  intros Hnames m. unfold markers. fold (names msgs). rewrite Hnames.
  rewrite elem_of_list_to_set.
  destruct k as [|[|[|[|[|k]]]]]; destruct m; simpl; split; intros H;
    try lia; try (by repeat constructor);
    exfalso; repeat (apply elem_of_cons in H as [H|H]; [by inversion H|]);
    by apply not_elem_of_nil in H.
Qed.

Lemma obedient_run_order E :
  obeys_workflow_rules E →
  ∀ n k state log limit,
    k + n = 5 → names (messages state) = "user" :: take k members →
    2 * n + 1 ≤ limit →
    ∃ final log',
      graph_run E limit "supervisor" state log = (Ok final, log') ∧
      names (messages final) = "user" :: members ∧ next final = "FINISH".
Proof.
  intros Hobeys. induction n as [|n IH];
    intros k state log limit Hk Hnames Hlimit.
  - assert (k = 5) as -> by lia.
    destruct limit as [|limit]; [lia|].
    rewrite graph_run_supervisor, Hobeys.
    rewrite (spec_next_step_prefix 5) by (by apply names_done_prefix).
    eexists _, _. split; [reflexivity|]. simpl. by rewrite app_nil_r.
  - destruct limit as [|[|limit]]; [lia..|].
    rewrite graph_run_supervisor, Hobeys.
    rewrite (spec_next_step_prefix k) by (by apply names_done_prefix).
    destruct (member_at k) as [m|] eqn:Hm.
    2:{ apply lookup_ge_None in Hm. simpl in Hm. lia. }
    set (state1 := apply_update state _).
    cbn [graph_run]. rewrite node_lookup_member.
    destruct (member_node_returns E m state1
                (log ++ [RouteCall (supervisor_prompt state)]))
      as (u & log1 & text & Hrun & Hmsg).
    unfold mbind at 1, M_bind at 1. rewrite Hrun.
    unfold mbind at 1, M_bind at 1, lift at 1. rewrite next_target_member.
    apply (IH (S k)); [lia| |lia].
    assert (messages (apply_update state1 u)
            = messages state ++ [HumanMessage text (member_name m)]) as ->
      by (unfold state1; simpl; by rewrite Hmsg, app_nil_r).
    unfold names in *. rewrite omap_app, Hnames.
    change (omap msg_name [HumanMessage text (member_name m)])
      with [member_name m].
    by rewrite (take_S_r _ _ _ (member_at_members k m Hm)).
Qed.

(** X19: under a model that follows the workflow rules,
    [evaluate_candidates] returns, and the run behind it has executed
    each of the five agents exactly once, in the order resume, LinkedIn,
    cover letter, job match, final rank, before the supervisor chose
    [FINISH]. *)
Theorem X19_rule_following_run_order (E : Env) (offer : string)
    (cs : list candidate) (log : list llm_call) :
  obeys_workflow_rules E →
  ∃ final log',
    graph_invoke E (initial_state offer cs) log = (Ok final, log') ∧
    evaluate_candidates E offer cs log = (Ok (evaluation_of final), log') ∧
    names (messages final) = "user" :: members ∧
    next final = "FINISH".
Proof.
  intros Hobeys.
  destruct (obedient_run_order E Hobeys 5 0 (initial_state offer cs) log
              recursion_limit eq_refl eq_refl)
    as (final & log' & Hrun & Hnames & Hnext).
  { unfold recursion_limit. lia. }
  exists final, log'. split_and!; try done.
  rewrite evaluate_candidates_unfold. unfold graph_invoke. by rewrite Hrun.
Qed.

Lemma X19_sample_run_witness :
  ∃ final log',
    graph_invoke Sample.world (initial_state "dev" [Sample.ada]) []
    = (Ok final, log') ∧
    evaluate_candidates Sample.world "dev" [Sample.ada] []
    = (Ok (evaluation_of final), log') ∧
    names (messages final) = "user" :: members ∧
    next final = "FINISH".
Proof.
  apply (X19_rule_following_run_order Sample.world "dev" [Sample.ada] []).
  intros log state. unfold Sample.world, Sample.rule_router. simpl.
  unfold markers, supervisor_prompt. rewrite !omap_app. simpl.
  rewrite app_nil_r. reflexivity.
Defined.

(** ** Keys of candidates without an id *)

Lemma placeholder_inj i j : placeholder i = placeholder j → i = j.
Proof.
  unfold placeholder. intros H.
  apply (inj (String.app "candidate_")) in H. by apply (inj pretty) in H.
Qed.

Lemma ids_from_no_id cs idx :
  (∀ c, c ∈ cs → dict_get c "id" = None) →
  ids_from idx cs = placeholder <$> seq idx (length cs).
Proof.
  revert idx. induction cs as [|c cs IH]; intros idx Hno; simpl; [done|].
  rewrite IH by (intros c' Hc'; apply Hno; by right).
  f_equal. unfold candidate_id, dict_get_default.
  pose proof (Hno c ltac:(left)) as Hc. unfold dict_get in Hc.
  by rewrite Hc.
Qed.

(** X20: candidates that carry no id are filed under their positional
    placeholders, which are pairwise distinct, so every per-candidate
    step returns a dict with one entry for each of them. *)
Theorem X20_candidates_without_id_all_kept (E : Env) (s : step)
    (state : CandidateState) (log : list llm_call) :
  (∀ c, c ∈ candidates state → dict_get c "id" = None) →
  NoDup (ids (candidates state)) ∧
  ∃ u d log',
    step_agent E s state log = (Ok u, log') ∧ step_output s u = Some d ∧
    size d = length (candidates state) ∧
    ∀ i, i < length (candidates state) → is_Some (d !! placeholder i).
Proof.
  intros Hno.
  assert (ids (candidates state)
          = placeholder <$> seq 0 (length (candidates state))) as Hids
    by (by apply ids_from_no_id).
  assert (NoDup (ids (candidates state))) as Hnd.
  { rewrite Hids. apply NoDup_fmap_2; [|apply NoDup_seq].
    intros i j. apply placeholder_inj. }
  split; [done|].
  destruct (step_agent_returns E s state log)
    as (u & d & log' & Hrun & _ & Hout & _ & _ & _ & _ & Hdom & _).
  exists u, d, log'. split_and!; try done.
  - rewrite <- size_dom, Hdom, size_list_to_set by done.
    apply ids_from_length.
  - intros i Hi. apply elem_of_dom. rewrite Hdom, Hids.
    apply elem_of_list_to_set, list_elem_of_fmap. exists i. split; [done|].
    apply elem_of_seq. lia.
Qed.

Lemma X20_anonymous_witness :
  NoDup (ids [ {[ "resume_path" := "cv/ada.pdf" ]};
               {[ "resume_path" := "cv/two.pdf" ]} ]) ∧
  ∃ u d log',
    step_agent Sample.world ResumeStep
      (initial_state "dev" [ {[ "resume_path" := "cv/ada.pdf" ]};
                             {[ "resume_path" := "cv/two.pdf" ]} ]) []
    = (Ok u, log') ∧
    step_output ResumeStep u = Some d ∧
    size d = 2 ∧
    ∀ i, i < 2 → is_Some (d !! placeholder i).
Proof.
  apply (X20_candidates_without_id_all_kept Sample.world ResumeStep
           (initial_state "dev" [ {[ "resume_path" := "cv/ada.pdf" ]};
                                  {[ "resume_path" := "cv/two.pdf" ]} ]) []).
  intros c Hc. simpl in Hc.
  apply elem_of_cons in Hc as [->|Hc]; [reflexivity|].
  apply elem_of_cons in Hc as [->|Hc]; [reflexivity|].
  by apply not_elem_of_nil in Hc.
Defined.

(** ** The job matcher without analyses *)

Lemma match_candidates_body_bare E state idx c d lg :
  resume_analyses state = ∅ → linkedin_analyses state = ∅ →
  cover_letter_analyses state = ∅ →
  ∃ d',
    match_candidates_body E state idx c d lg
    = (Ok d', lg ++ [InvokeCall (bare_job_match_prompt (job_offer state))]).
Proof.
  intros Hr Hl Hc.
  unfold match_candidates_body, match_candidates_try, match_candidates_except,
    dict_get_default, bare_job_match_prompt.
  rewrite Hr, Hl, Hc, !lookup_empty. run_monad.
  destruct (llm_reply E lg _); by eexists.
Qed.

(** X21: run on a state whose three analysis dicts are empty (as when it
    is routed to before the analyzers), the job matcher still calls the
    model once per candidate, each time with the same prompt: the job
    offer and the three "No ... analysis" defaults, nothing about the
    candidate. *)
Theorem X21_job_matcher_without_analyses (E : Env) (state : CandidateState)
    (log : list llm_call) :
  resume_analyses state = ∅ → linkedin_analyses state = ∅ →
  cover_letter_analyses state = ∅ →
  ∃ u,
    match_candidates E state log
    = (Ok u,
       log ++ replicate (length (candidates state))
                (InvokeCall (bare_job_match_prompt (job_offer state)))).
Proof.
  intros Hr Hl Hc.
  assert (∀ cs idx d lg, ∃ d',
            for_enumerate (match_candidates_body E state) idx cs d lg
            = (Ok d',
               lg ++ replicate (length cs)
                       (InvokeCall (bare_job_match_prompt (job_offer state)))))
    as Hloop.
  { induction cs as [|c cs IH]; intros idx d lg.
    - exists d. simpl. by rewrite app_nil_r.
    - destruct (match_candidates_body_bare E state idx c d lg Hr Hl Hc)
        as (d1 & Hbody).
      destruct (IH (S idx) d1
                  (lg ++ [InvokeCall (bare_job_match_prompt (job_offer state))]))
        as (d2 & Hrest).
      exists d2. cbn [for_enumerate]. unfold mbind, M_bind.
      rewrite Hbody, Hrest. by rewrite <- (assoc_L (++)). }
  destruct (Hloop (candidates state) 0 ∅ log) as (d & Hrun).
  unfold match_candidates, mbind, M_bind, mret, M_ret. rewrite Hrun.
  by eexists.
Qed.

Lemma X21_first_routed_witness :
  ∃ u,
    match_candidates Sample.world
      (initial_state "dev" [Sample.ada; Sample.bob]) []
    = (Ok u,
       [] ++ replicate 2 (InvokeCall (bare_job_match_prompt "dev"))).
Proof.
  apply (X21_job_matcher_without_analyses Sample.world
           (initial_state "dev" [Sample.ada; Sample.bob]) []).
  - reflexivity.
  - reflexivity.
  - reflexivity.
Defined.

(** ** No candidates *)



(** ** The cover letter step and [FileNotFoundError] *)

(** X23: a cover letter path that names no file is filed as "Cover letter
    file not found", and a file that cannot be opened as the step's
    error text around the parser's message; the model is called in
    neither case. *)
Theorem X23_cover_letter_file_errors (E : Env) (idx : nat) (c : candidate)
    (d : gmap string analysis) (lg : list llm_call) (path : string) :
  dict_get c "cover_letter_path" = Some path → falsy path = false →
  match pdf_file E path with
  | Missing =>
      analyze_cover_letter_body E idx c d lg
      = (Ok (<[candidate_id idx c := AStr "Cover letter file not found"]> d),
         lg)
  | Unreadable e =>
      exn_class e ≠ FileNotFoundError →
      analyze_cover_letter_body E idx c d lg
      = (Ok (<[candidate_id idx c :=
                 AStr ("Error analyzing cover letter: Error parsing PDF: "
                       +:+ exn_str e)]> d), lg)
  | Pages _ => True
  end.
Proof.
  intros Hpath Hf.
  unfold analyze_cover_letter_body, analyze_cover_letter_try,
    analyze_cover_letter_except, candidate_id.
  rewrite Hpath. simpl. rewrite Hf. run_monad. rewrite parse_pdf_spec.
  destruct (pdf_file E path) as [|e|pages]; [done| |done].
  intros Hclass. by destruct (exn_class e).
Qed.

Lemma X23_missing_cover_letter_witness :
  analyze_cover_letter_body Sample.world 0
    {[ "id" := "lin"; "cover_letter_path" := "cv/nowhere.pdf" ]} ∅ []
  = (Ok (<[ "lin" := AStr "Cover letter file not found" ]> ∅), []).
Proof.
  exact (X23_cover_letter_file_errors Sample.world 0
           {[ "id" := "lin"; "cover_letter_path" := "cv/nowhere.pdf" ]} ∅ []
           "cv/nowhere.pdf" eq_refl eq_refl).
Defined.

(** X24: the [except FileNotFoundError] clause of the cover letter step
    also covers the model call: when the letter was read and the call
    raises a [FileNotFoundError], the entry says "Cover letter file not
    found" although the file exists. *)
Theorem X24_cover_letter_call_error_misreported (E : Env) (idx : nat)
    (c : candidate) (d : gmap string analysis) (lg : list llm_call)
    (path text : string) (e : exn) :
  dict_get c "cover_letter_path" = Some path → falsy path = false →
  parse_pdf E path = Ok text → falsy text = false →
  llm_reply E lg (cover_letter_prompt text) = Raise e →
  exn_class e = FileNotFoundError →
  analyze_cover_letter_body E idx c d lg
  = (Ok (<[candidate_id idx c := AStr "Cover letter file not found"]> d),
     lg ++ [InvokeCall (cover_letter_prompt text)]).
Proof.
  intros Hpath Hf Hparse Htext Hreply Hclass.
  destruct (parse_pdf_text E path text Hparse) as [_ Hstrip].
  unfold analyze_cover_letter_body, analyze_cover_letter_try,
    analyze_cover_letter_except, candidate_id.
  rewrite Hpath. simpl. rewrite Hf. run_monad.
  rewrite Hparse, Hstrip, Htext. run_monad. rewrite Hreply. simpl.
  by rewrite Hclass.
Qed.

Lemma X24_unconfigured_witness :
  analyze_cover_letter_body Worlds.unconfigured 0 Sample.ada ∅ []
  = (Ok (<[ "ada" := AStr "Cover letter file not found" ]> ∅),
     [] ++ [InvokeCall (cover_letter_prompt "page two")]).
Proof.
  exact (X24_cover_letter_call_error_misreported Worlds.unconfigured 0
           Sample.ada ∅ [] "cv/two.pdf" "page two"
           (mk_exn FileNotFoundError "model config missing")
           eq_refl eq_refl eq_refl eq_refl eq_refl eq_refl).
Defined.
